(** * A.L.I.V.E: the A2A event bus and the Librarian coordinator

    A shallow embedding of [src/adk/a2a.py], [src/adk/skills/file_tools.py],
    [src/adk/skills/task_tools.py], [src/adk/skills/a2a_tools.py],
    [src/agents/librarian.py] and [src/agents/probe.py], and the properties
    of the bus, the router, the task life cycle and the consolidation
    pipeline that hold (or fail) on it.

    Modelling conventions.
    - Python [str] values are [string]s of ASCII characters; [str.lower],
      [str.strip], [str.split], [str.startswith] and [in] are written out
      below for that alphabet.
    - A message is a Python value; a [dict] message has string keys and
      string values (every message built in the repository has).
    - The file system is a finite map from path to content, driven by a
      list of outcomes that says which primitive calls misbehave.
    - Functions that can raise return [Raised e] together with the state
      reached when the exception left them. *)

From Stdlib Require Import ZArith Ascii String DecimalString.
From Stdlib Require DecimalNat.
From stdpp Require Import gmap strings list fin_maps.



(** ** Python string operations (ASCII) *)

Module Text.

(** [str.isspace] on one ASCII character: TAB, LF, VT, FF, CR, the four
    separators 0x1c-0x1f and the space. *)
Definition is_space (c : ascii) : bool :=
  let n := nat_of_ascii c in
  ((9 <=? n) && (n <=? 13) || (28 <=? n) && (n <=? 32))%nat.

Definition lower_char (c : ascii) : ascii :=
  let n := nat_of_ascii c in
  if ((65 <=? n) && (n <=? 90))%nat then ascii_of_nat (n + 32) else c.

(** [s.lower()] *)
Fixpoint lower (s : string) : string :=
  match s with
  | EmptyString => EmptyString
  | String c s' => String (lower_char c) (lower s')
  end.

(** [s.lstrip()] *)
Fixpoint lstrip (s : string) : string :=
  match s with
  | EmptyString => EmptyString
  | String c s' => if is_space c then lstrip s' else s
  end.

(** [s.rstrip()] *)
Fixpoint rstrip (s : string) : string :=
  match s with
  | EmptyString => EmptyString
  | String c s' =>
      match rstrip s' with
      | EmptyString => if is_space c then EmptyString else String c EmptyString
      | r => String c r
      end
  end.

(** [s.strip()] *)
Definition strip (s : string) : string := rstrip (lstrip s).

(** [s.startswith(p)] *)
Fixpoint startswith (s p : string) {struct p} : bool :=
  match p with
  | EmptyString => true
  | String c p' =>
      match s with
      | EmptyString => false
      | String d s' => Ascii.eqb c d && startswith s' p'
      end
  end.

(** [needle in s] *)
Fixpoint contains (s needle : string) : bool :=
  startswith s needle ||
  match s with
  | EmptyString => false
  | String _ s' => contains s' needle
  end.

(** [s[n:]] *)
Fixpoint drop_chars (n : nat) (s : string) : string :=
  match n, s with
  | O, _ => s
  | S _, EmptyString => EmptyString
  | S n', String _ s' => drop_chars n' s'
  end.

(** [s.split(sep)] for a one-character separator: never the empty list. *)
Fixpoint split_on (sep : ascii) (s : string) : list string :=
  match s with
  | EmptyString => [EmptyString]
  | String c s' =>
      if Ascii.eqb c sep then EmptyString :: split_on sep s'
      else match split_on sep s' with
           | h :: t => String c h :: t
           | [] => [String c EmptyString]
           end
  end.

(** Truthiness of a string: [if s:] *)
Definition truthy (s : string) : bool :=
  match s with EmptyString => false | _ => true end.

Definition newline : ascii := ascii_of_nat 10.

(** [f"{n:03d}"]: decimal, padded with zeros to three digits at least. *)
Definition decimal (n : nat) : string := NilEmpty.string_of_uint (Nat.to_uint n).

Definition pad3 (s : string) : string :=
  match String.length s with
  | 0 => "000" +:+ s
  | 1 => "00" +:+ s
  | 2 => "0" +:+ s
  | _ => s
  end%nat.

(** [s.count(c)] for one character. *)
Fixpoint count_char (c : ascii) (s : string) : nat :=
  match s with
  | EmptyString => 0
  | String d s' => (if Ascii.eqb c d then 1 else 0) + count_char c s'
  end.

(** The declarative reading of [needle in s]. *)
Definition occurs_in (needle s : string) : Prop :=
  exists pre post, s = pre +:+ needle +:+ post.

End Text.

Import Text.

(** ** The roster: [LibrarianAgent._load_roster] *)

(** A Python [dict] whose iteration order matters: keys in order of first
    insertion; assigning to a key that is present replaces its value in
    place. *)
Section OrderedDict.
Context {V : Type}.

Fixpoint dict_get (k : string) (d : list (string * V)) : option V :=
  match d with
  | [] => None
  | (k', v) :: d' => if String.eqb k k' then Some v else dict_get k d'
  end.

(** [d[k] = v] *)
Fixpoint dict_set (k : string) (v : V) (d : list (string * V)) : list (string * V) :=
  match d with
  | [] => [(k, v)]
  | (k', v') :: d' =>
      if String.eqb k k' then (k, v) :: d' else (k', v') :: dict_set k v d'
  end.

(** [f(d[k])] for a mutation [f] of the value stored under [k]; the
    callers below only use it on keys that are present. *)
Fixpoint dict_update (k : string) (f : V -> V) (d : list (string * V)) : list (string * V) :=
  match d with
  | [] => []
  | (k', v') :: d' =>
      if String.eqb k k' then (k', f v') :: d' else (k', v') :: dict_update k f d'
  end.
End OrderedDict.

Record agent_info := AgentInfo {
  info_agent_id : string;
  capabilities : list string;
  permissions : list string
}.

Inductive section_name := Capabilities | Permissions.

Abbreviation roster_t := (list (string * agent_info)).

(** The three locals of the parsing loop. [current_agent] is [None] before
    the first header; a header with an empty name leaves it [Some ""],
    which is falsy like [None]. *)
Record parse_state := ParseState {
  agents : roster_t;
  current_agent : option string;
  current_section : option section_name
}.

Definition agent_set (a : option string) : bool :=
  match a with Some n => truthy n | None => false end.

(** [agents[current_agent][current_section].append(item)] *)
Definition append_item (sec : section_name) (item : string) (i : agent_info) : agent_info :=
  match sec with
  | Capabilities => AgentInfo (info_agent_id i) (capabilities i ++ [item]) (permissions i)
  | Permissions => AgentInfo (info_agent_id i) (capabilities i) (permissions i ++ [item])
  end.

(** One iteration of [for line in lines]. *)
Definition roster_line (st : parse_state) (line : string) : parse_state :=
  let stripped := strip line in
  if startswith stripped "##" && negb (startswith stripped "###") then
    let name := strip (drop_chars 2 stripped) in
    ParseState
      (if truthy name then dict_set name (AgentInfo name [] []) (agents st) else agents st)
      (Some name) (current_section st)
  else if agent_set (current_agent st) && contains stripped ":"
          && negb (startswith stripped "-") then
    if contains (lower stripped) "capabilities" then
      ParseState (agents st) (current_agent st) (Some Capabilities)
    else if contains (lower stripped) "permissions" then
      ParseState (agents st) (current_agent st) (Some Permissions)
    else st
  else
    match current_agent st, current_section st with
    | Some a, Some sec =>
        if truthy a && startswith stripped "-" then
          let item := strip (drop_chars 1 stripped) in
          if truthy item then
            ParseState (dict_update a (append_item sec item) (agents st))
                       (current_agent st) (current_section st)
          else st
        else st
    | _, _ => st
    end.

(** [_load_roster]: [None] is a roster file that does not exist. *)
Definition load_roster (file : option string) : roster_t :=
  match file with
  | None => []
  | Some roster_content =>
      agents (fold_left roster_line (split_on newline roster_content)
                        (ParseState [] None None))
  end.

(** ** The router: [LibrarianAgent._route_task] *)

Definition librarian_id : string := "librarian".

(** [capability.strip().lower() in payload_lower] *)
Definition capability_hits (payload_lower : string) (capability : string) : bool :=
  contains payload_lower (lower (strip capability)).

Fixpoint route_loop (payload_lower : string) (r : roster_t) : string :=
  match r with
  | [] => librarian_id
  | (agent_id, agent_info) :: r' =>
      if String.eqb agent_id librarian_id then route_loop payload_lower r'
      else if existsb (capability_hits payload_lower) (capabilities agent_info)
           then agent_id
           else route_loop payload_lower r'
  end.

Definition route_task (r : roster_t) (payload : string) : string :=
  route_loop (lower payload) r.

(** ** The bus: class [A2A] *)

(** Python values that reach [A2A.send] as its [message] argument. *)
Inductive pyval :=
| PyNone
| PyBool (b : bool)
| PyInt (n : Z)
| PyStr (s : string)
| PyDict (d : gmap string string).

Inductive exn :=
| ValueError (msg : string)
| FileNotFoundError (path : string)
| OSError (path : string)
| OutOfFuel.

(** The two checks that open [A2A.send]. *)
Definition check_message (message : pyval) : exn + gmap string string * string :=
  match message with
  | PyDict d =>
      match d !! "type" with
      | Some event_type => inr (d, event_type)
      | None => inl (ValueError "Message must contain 'type' field")
      end
  | _ => inl (ValueError "Message must be a dictionary")
  end.

Module Bus.
Section A2A.
(** The callables registered as handlers. *)
Context {H : Type}.

(** An [A2A] object. *)
Record instance := Instance {
  agent_id : string;
  handlers : gmap string (list H);
  running : bool
}.

(** The class attributes [_global_handlers] and [_instances], and the
    objects created so far: [_instances] holds references (positions in
    [objects]), and an agent keeps the reference to its own object even
    after a later object took over its [agent_id]. *)
Record a2a_class := A2AClass {
  global_handlers : gmap string (list (string * H));
  instances : gmap string nat;
  objects : list instance
}.

Definition empty_class : a2a_class := A2AClass ∅ ∅ [].

(** [A2A(agent_id)] *)
Definition init (agent : string) (c : a2a_class) : nat * a2a_class :=
  let self := length (objects c) in
  (self, A2AClass (global_handlers c) (<[agent := self]> (instances c))
                  (objects c ++ [Instance agent ∅ false])).

Definition global_key (agent event_type : string) : string :=
  agent +:+ ":" +:+ event_type.

(** [self.on(event_type, handler)] *)
Definition on (self : nat) (event_type : string) (handler : H) (c : a2a_class) : a2a_class :=
  match objects c !! self with
  | None => c
  | Some o =>
      let hs := default [] (handlers o !! event_type) in
      let o' := Instance (agent_id o) (<[event_type := hs ++ [handler]]> (handlers o))
                         (running o) in
      let key := global_key (agent_id o) event_type in
      let gs := default [] (global_handlers c !! key) in
      A2AClass (<[key := gs ++ [(agent_id o, handler)]]> (global_handlers c))
               (instances c) (<[self := o']> (objects c))
  end.

Definition set_running (b : bool) (self : nat) (c : a2a_class) : a2a_class :=
  match objects c !! self with
  | None => c
  | Some o =>
      A2AClass (global_handlers c) (instances c)
               (<[self := Instance (agent_id o) (handlers o) b]> (objects c))
  end.

(** [self.start()] and [self.stop()] *)
Definition start : nat -> a2a_class -> a2a_class := set_running true.
Definition stop : nat -> a2a_class -> a2a_class := set_running false.

(** The handlers of the first loop of [send]: those of the object that
    [_instances] holds for [to_agent], if it is running. *)
Definition instance_targets (c : a2a_class) (to_agent event_type : string) : list H :=
  match instances c !! to_agent ≫= (fun r => objects c !! r) with
  | Some target_instance =>
      if running target_instance
      then default [] (handlers target_instance !! event_type)
      else []
  | None => []
  end.

(** The handlers of the second loop of [send]. *)
Definition global_targets (c : a2a_class) (to_agent event_type : string) : list H :=
  snd <$> filter (fun p => p.1 = to_agent)
                 (default [] (global_handlers c !! global_key to_agent event_type)).

(** The handler calls one [send] makes, in order, when no handler
    changes the registrations. *)
Definition send_order (c : a2a_class) (to_agent : string) (message : pyval) : exn + list H :=
  match check_message message with
  | inl e => inl e
  | inr (_, event_type) =>
      inr (instance_targets c to_agent event_type ++ global_targets c to_agent event_type)
  end.

(** [send] over any state [W] that holds the class, with [call h m] the
    effect of calling [h(m)]: an exception that leaves a handler ends
    the loop and leaves [send]. *)
Section Send.
Context {W : Type}.
Variable get_class : W -> a2a_class.
Variable call : H -> gmap string string -> W -> option exn * W.

Fixpoint call_all (hs : list H) (message : gmap string string) (w : W) : option exn * W :=
  match hs with
  | [] => (None, w)
  | handler :: hs' =>
      match call handler message w with
      | (None, w') => call_all hs' message w'
      | (Some e, w') => (Some e, w')
      end
  end.

Definition send (to_agent : string) (message : pyval) (w : W) : option exn * W :=
  match check_message message with
  | inl e => (Some e, w)
  | inr (d, event_type) =>
      match call_all (instance_targets (get_class w) to_agent event_type) d w with
      | (Some e, w1) => (Some e, w1)
      | (None, w1) =>
          call_all (global_targets (get_class w1) to_agent event_type) d w1
      end
  end.
End Send.
End A2A.
Arguments instance : clear implicits.
Arguments a2a_class : clear implicits.
End Bus.

(** ** The state of the running system *)

Inductive status_t := Routing | Delegated | Completed.

(** An entry of [LibrarianAgent.active_tasks]. *)
Record task := Task {
  task_id : string;
  payload : string;
  status : status_t;
  assigned_agent : option string
}.

(** The bound methods that the agents of the repository register, and
    [Listener n] for a callable of some other agent, which touches nothing
    of the state below. *)
Inductive handler :=
| LibNewTask
| LibTaskComplete
| ProbeDelegatedTask
| Listener (n : nat).

(** What one primitive call on the file system does: what it should,
    raise, or return normally without having had its effect. *)
Inductive io_outcome := IoOk | IoFails | IoSilent.

Record world := World {
  a2a : Bus.a2a_class handler;
  roster : roster_t;
  active_tasks : gmap string task;
  completion_queue : list (string * string);
  task_counter : nat;
  files : gmap string string;
  io : list io_outcome;
  calls : list (handler * gmap string string)
}.

Definition set_active_tasks (f : gmap string task -> gmap string task) (w : world) : world :=
  World (a2a w) (roster w) (f (active_tasks w)) (completion_queue w) (task_counter w)
        (files w) (io w) (calls w).

Definition set_completion_queue (f : list (string * string) -> list (string * string))
    (w : world) : world :=
  World (a2a w) (roster w) (active_tasks w) (f (completion_queue w)) (task_counter w)
        (files w) (io w) (calls w).

Definition set_task_counter (n : nat) (w : world) : world :=
  World (a2a w) (roster w) (active_tasks w) (completion_queue w) n (files w) (io w) (calls w).

Definition set_files (f : gmap string string -> gmap string string) (w : world) : world :=
  World (a2a w) (roster w) (active_tasks w) (completion_queue w) (task_counter w)
        (f (files w)) (io w) (calls w).

Definition set_io (o : list io_outcome) (w : world) : world :=
  World (a2a w) (roster w) (active_tasks w) (completion_queue w) (task_counter w)
        (files w) o (calls w).

Definition set_a2a (f : Bus.a2a_class handler -> Bus.a2a_class handler) (w : world) : world :=
  World (f (a2a w)) (roster w) (active_tasks w) (completion_queue w) (task_counter w)
        (files w) (io w) (calls w).

Definition log_call (h : handler) (m : gmap string string) (w : world) : world :=
  World (a2a w) (roster w) (active_tasks w) (completion_queue w) (task_counter w)
        (files w) (io w) (calls w ++ [(h, m)]).

(** Computations that read and write the state and may raise. *)
Inductive result (A : Type) :=
| Ok (a : A)
| Raised (e : exn).
Arguments Ok {A} a.
Arguments Raised {A} e.

Definition M (A : Type) : Type := world -> result A * world.

Definition ret {A} (a : A) : M A := fun w => (Ok a, w).
Definition raise {A} (e : exn) : M A := fun w => (Raised e, w).
Definition bind {A B} (m : M A) (k : A -> M B) : M B :=
  fun w => match m w with
           | (Ok a, w') => k a w'
           | (Raised e, w') => (Raised e, w')
           end.
Definition modify (f : world -> world) : M unit := fun w => (Ok tt, f w).
Definition gets {A} (f : world -> A) : M A := fun w => (Ok (f w), w).

(** [try: m  except Exception: h] *)
Definition try_except {A} (m : M A) (h : M A) : M A :=
  fun w => match m w with
           | (Ok a, w') => (Ok a, w')
           | (Raised _, w') => h w'
           end.

Declare Scope py_scope.
Delimit Scope py_scope with py.
Notation "x <- m ;; k" := (bind m (fun x => k))
  (at level 100, m at next level, k at level 200) : py_scope.
Notation "m ;; k" := (bind m (fun _ => k))
  (at level 100, k at level 200) : py_scope.
Open Scope py_scope.

(** ** The file system and [adk/skills/file_tools.py] *)

Definition nl : string := String newline EmptyString.

Definition logs_path : string := "logs".
Definition active_spec_path : string := "logs/active_spec.md".

(** [self.logs_path / f"{agent_id}_{task_id}_spec.md"] *)
Definition spec_path (agent_id task_id : string) : string :=
  "logs/" +:+ agent_id +:+ "_" +:+ task_id +:+ "_spec.md".

(** Every primitive but [exists] takes the next outcome of [io]; when the
    list is used up the file system behaves. *)
Definition next_io : M io_outcome :=
  fun w => match io w with
           | [] => (Ok IoOk, w)
           | o :: os => (Ok o, set_io os w)
           end.

(** [Path(p).exists()] *)
Definition path_exists (p : string) : M bool :=
  gets (fun w => bool_decide (is_Some (files w !! p))).

(** [Path(p).mkdir(parents=True, exist_ok=True)]: directories are not part
    of the model, a failure is. *)
Definition mkdir (p : string) : M unit :=
  o <- next_io ;;
  match o with
  | IoFails => raise (OSError p)
  | _ => ret tt
  end.

(** [open(p, 'r').read()] *)
Definition open_read (p : string) : M string :=
  o <- next_io ;;
  match o with
  | IoFails => raise (OSError p)
  | _ => c <- gets (fun w => files w !! p) ;;
         match c with
         | Some content => ret content
         | None => raise (FileNotFoundError p)
         end
  end.

(** [open(p, 'w').write(content)] *)
Definition open_write (p content : string) : M unit :=
  o <- next_io ;;
  match o with
  | IoFails => raise (OSError p)
  | IoSilent => ret tt
  | IoOk => modify (set_files (insert p content))
  end.

(** [Path(p).unlink()] *)
Definition unlink (p : string) : M unit :=
  o <- next_io ;;
  match o with
  | IoFails => raise (OSError p)
  | IoSilent => ret tt
  | IoOk =>
      c <- gets (fun w => files w !! p) ;;
      match c with
      | Some _ => modify (set_files (delete p))
      | None => raise (FileNotFoundError p)
      end
  end.

Definition read_file (path : string) : M string :=
  e <- path_exists path ;;
  if negb e then raise (FileNotFoundError path)
  else open_read path.

Definition write_file (path content : string) : M unit :=
  mkdir logs_path ;;
  open_write path content.

Definition delete_file (path : string) : M unit :=
  e <- path_exists path ;;
  if negb e then raise (FileNotFoundError path)
  else unlink path.

(** ** [adk/skills/task_tools.py] *)

Definition generate_task_id : M string :=
  n <- gets task_counter ;;
  modify (set_task_counter (S n)) ;;
  ret ("TASK-" +:+ pad3 (decimal (S n))).

(** ** The Librarian: [agents/librarian.py] *)

Definition falsy (v : option string) : bool :=
  match v with
  | Some s => negb (truthy s)
  | None => true
  end.

Definition set_status (st : status_t) (t : task) : task :=
  Task (task_id t) (payload t) st (assigned_agent t).

Definition set_assigned_agent (a : string) (t : task) : task :=
  Task (task_id t) (payload t) (status t) (Some a).

(** [_cleanup_task] *)
Definition cleanup_task (task_id : string) : M unit :=
  modify (set_active_tasks (delete task_id)) ;;
  modify (set_completion_queue (filter (fun item => item.2 ≠ task_id))).

Definition aggregate_header : string := "# Active Specification" +:+ nl +:+ nl.

Definition separator (agent_id task_id : string) : string :=
  nl +:+ nl +:+ "---" +:+ nl +:+ "## Task: " +:+ task_id +:+ " (by " +:+ agent_id +:+ ")"
     +:+ nl +:+ nl.

(** [_append_to_active_spec] *)
Definition append_to_active_spec (content agent_id task_id : string) : M unit :=
  mkdir logs_path ;;
  e <- path_exists active_spec_path ;;
  existing_content <- (if e then read_file active_spec_path else ret aggregate_header) ;;
  let updated_content :=
    existing_content +:+ separator agent_id task_id +:+ content +:+ nl in
  write_file active_spec_path updated_content.

(** [_verify_consolidation] *)
Definition verify_consolidation (content : string) : M bool :=
  e <- path_exists active_spec_path ;;
  if negb e then ret false
  else
    active_spec_content <- read_file active_spec_path ;;
    ret (contains active_spec_content (strip content)).

(** [try: delete_file(p)  except Exception: pass] *)
Definition delete_best_effort (p : string) : M unit :=
  try_except (delete_file p) (ret tt).

(** [_collect_and_consolidate_spec] *)
Definition collect_and_consolidate_spec (agent_id task_id : string) : M unit :=
  let p := spec_path agent_id task_id in
  e <- path_exists p ;;
  if negb e then cleanup_task task_id
  else
    r <- try_except (c <- read_file p ;; ret (Some c)) (ret None) ;;
    match r with
    | None => cleanup_task task_id
    | Some spec_content =>
        if negb (truthy (strip spec_content)) then
          delete_best_effort p ;;
          cleanup_task task_id
        else
          appended <- try_except
                        (append_to_active_spec spec_content agent_id task_id ;; ret true)
                        (ret false) ;;
          if negb appended then ret tt
          else
            verification_success <- verify_consolidation spec_content ;;
            (if verification_success then delete_best_effort p else ret tt) ;;
            cleanup_task task_id
    end.

(** [_handle_task_complete] *)
Definition handle_task_complete (message : gmap string string) : M unit :=
  let agent_id := message !! "agent_id" in
  let task_id := message !! "task_id" in
  if falsy agent_id || falsy task_id then ret tt
  else
    let a := default "" agent_id in
    let t := default "" task_id in
    known <- gets (fun w => active_tasks w !! t) ;;
    let finish :=
      modify (set_completion_queue (fun q => q ++ [(a, t)])) ;;
      collect_and_consolidate_spec a t in
    match known with
    | Some tk =>
        match status tk with
        | Completed => ret tt
        | _ => modify (set_active_tasks (alter (set_status Completed) t)) ;; finish
        end
    | None => finish
    end.

Definition delegated_task (task_id payload : string) : gmap string string :=
  <["type" := "DELEGATED_TASK"]> (<["task_id" := task_id]> (<["payload" := payload]> ∅)).

(** [_handle_new_task]; [send] is [self.a2a.send]. *)
Definition handle_new_task (send : string -> pyval -> M unit)
    (message : gmap string string) : M unit :=
  let payload := default "" (message !! "payload") in
  task_id <- (if falsy (message !! "task_id") then generate_task_id
              else ret (default "" (message !! "task_id"))) ;;
  modify (set_active_tasks (insert task_id (Task task_id payload Routing None))) ;;
  r <- gets roster ;;
  let target_agent := route_task r payload in
  modify (set_active_tasks (alter (set_assigned_agent target_agent) task_id)) ;;
  modify (set_active_tasks (alter (set_status Delegated) task_id)) ;;
  send target_agent (PyDict (delegated_task task_id payload)).

(** ** The Probe: [agents/probe.py] and [adk/skills/a2a_tools.py] *)

Definition probe_id : string := "probe".

Definition probe_spec_content : string :=
  "# Probe Agent Report" +:+ nl +:+ nl +:+
  "The ALIVE framework routed this task correctly." +:+ nl +:+
  "A2A signaling works." +:+ nl +:+
  "File-based state works." +:+ nl.

Definition task_complete (agent_id task_id : string) : gmap string string :=
  <["type" := "TASK_COMPLETE"]> (<["agent_id" := agent_id]> (<["task_id" := task_id]> ∅)).

Definition emit_task_complete (send : string -> pyval -> M unit)
    (agent_id task_id : string) : M unit :=
  send librarian_id (PyDict (task_complete agent_id task_id)).

(** [ProbeAgent._write_spec] *)
Definition write_spec (task_id : string) : M unit :=
  mkdir logs_path ;;
  write_file (spec_path probe_id task_id) probe_spec_content.

(** [ProbeAgent._handle_delegated_task] *)
Definition handle_delegated_task (send : string -> pyval -> M unit)
    (message : gmap string string) : M unit :=
  if falsy (message !! "task_id") then ret tt
  else
    let t := default "" (message !! "task_id") in
    write_spec t ;;
    emit_task_complete send probe_id t.

(** ** Dispatch *)

Definition run_handler (send : string -> pyval -> M unit) (h : handler)
    (message : gmap string string) : M unit :=
  match h with
  | LibNewTask => handle_new_task send message
  | LibTaskComplete => handle_task_complete message
  | ProbeDelegatedTask => handle_delegated_task send message
  | Listener _ => ret tt
  end.

Definition to_opt (r : result unit * world) : option exn * world :=
  match r with
  | (Ok _, w) => (None, w)
  | (Raised e, w) => (Some e, w)
  end.

Definition of_opt (r : option exn * world) : result unit * world :=
  match r with
  | (None, w) => (Ok tt, w)
  | (Some e, w) => (Raised e, w)
  end.

(** [A2A.send] in the running system. A handler may send in turn, so the
    calls nest; [fuel] bounds the depth of handler calls inside handler
    calls, and a call beyond it is cut with [OutOfFuel]. Each handler call
    is first recorded in [calls]. *)
Fixpoint send (fuel : nat) (to_agent : string) (message : pyval) (w : world)
    {struct fuel} : result unit * world :=
  of_opt
    (Bus.send a2a
       (fun h d w' =>
          match fuel with
          | O => (Some OutOfFuel, w')
          | S fuel' => to_opt (run_handler (send fuel') h d (log_call h d w'))
          end)
       to_agent message w).

(** ** Construction and start-up: the constructors and [core/manager.py] *)

Definition os_path : string := "docs/engineering_os.md".
Definition roster_path : string := "docs/agent_roster.md".

(** [_load_os] *)
Definition load_os : M string :=
  e <- path_exists os_path ;;
  if negb e then ret "" else read_file os_path.

(** [_load_roster], with its file access. *)
Definition load_roster_file : M roster_t :=
  e <- path_exists roster_path ;;
  if negb e then ret (load_roster None)
  else c <- read_file roster_path ;; ret (load_roster (Some c)).

Definition new_a2a (agent : string) : M nat :=
  fun w => let (self, c) := Bus.init agent (a2a w) in (Ok self, set_a2a (fun _ => c) w).

Definition set_roster (r : roster_t) (w : world) : world :=
  World (a2a w) r (active_tasks w) (completion_queue w) (task_counter w)
        (files w) (io w) (calls w).

(** [LibrarianAgent(workspace_root)]; the result is its [self.a2a]. *)
Definition librarian_init : M nat :=
  load_os ;;
  r <- load_roster_file ;;
  modify (set_roster r) ;;
  modify (set_active_tasks (fun _ => ∅)) ;;
  modify (set_completion_queue (fun _ => [])) ;;
  self <- new_a2a librarian_id ;;
  modify (set_a2a (Bus.on self "NEW_TASK" LibNewTask)) ;;
  modify (set_a2a (Bus.on self "TASK_COMPLETE" LibTaskComplete)) ;;
  ret self.

(** [ProbeAgent(workspace_root)]; the result is its [self.a2a]. *)
Definition probe_init : M nat :=
  self <- new_a2a probe_id ;;
  modify (set_a2a (Bus.on self "DELEGATED_TASK" ProbeDelegatedTask)) ;;
  ret self.

(** [Manager(workspace_root)] followed by [Manager.start()]; the result is
    the librarian's [self.a2a]. *)
Definition manager_boot : M nat :=
  manager <- new_a2a "manager" ;;
  lib <- librarian_init ;;
  modify (set_a2a (Bus.start manager)) ;;
  modify (set_a2a (Bus.start lib)) ;;
  ret lib.

Definition new_task (task_id payload : string) : gmap string string :=
  <["type" := "NEW_TASK"]> (<["task_id" := task_id]> (<["payload" := payload]> ∅)).

(** [Manager.submit_task] of a running manager. *)
Definition submit_task (fuel : nat) (task_description : string) : M string :=
  task_id <- generate_task_id ;;
  send fuel librarian_id (PyDict (new_task task_id task_description)) ;;
  ret task_id.

(** A fresh process in a workspace holding [fs], whose file system will
    misbehave as [o] says. *)
Definition new_process (fs : gmap string string) (o : list io_outcome) : world :=
  World Bus.empty_class [] ∅ [] 0 fs o [].

(** ** Kinds of message *)

Definition is_dict (message : pyval) : bool :=
  match message with PyDict _ => true | _ => false end.

(** ["type" in message], for a message of any kind. *)
Definition has_type (message : pyval) : bool :=
  match message with
  | PyDict d => bool_decide (is_Some (d !! "type"))
  | _ => false
  end.

(** ** Sample data *)

Definition demo_roster : string := "## probe
capabilities:
  - validate
".

(** The system after [Manager(...)] and [start()] in a workspace that holds
    only [demo_roster]. *)
Definition booted : world :=
  (manager_boot (new_process {[ roster_path := demo_roster ]} [])).2.

(** [booted] after a NEW_TASK that no agent of the roster matches: task
    ["T1"] stays in the active set, delegated to the librarian itself. *)
Definition tracking : world :=
  (send 3 librarian_id (PyDict (new_task "T1" "tidy the archive")) booted).2.

(** Two states that differ at most in the file system. *)
Definition same_agents (w w' : world) : Prop :=
  a2a w' = a2a w /\ roster w' = roster w /\ active_tasks w' = active_tasks w /\
  completion_queue w' = completion_queue w /\ task_counter w' = task_counter w /\
  calls w' = calls w.

(** [tracking] once the worker ["writer"] has left its artifact for
    ["T1"], with a file system that will misbehave as [o] says. *)
Definition artifact_left (o : list io_outcome) : world :=
  set_io o (set_files (insert (spec_path "writer" "T1") "Report body") tracking).

(** ** Keywords and matches *)

(** A keyword as the parser stores it: not empty, and with no whitespace
    around it. *)
Definition keyword_ok (c : string) : Prop := c ≠ EmptyString /\ strip c = c.

Definition info_ok (i : agent_info) : Prop :=
  Forall keyword_ok (capabilities i) /\ Forall keyword_ok (permissions i).

Definition roster_ok (r : roster_t) : Prop := Forall (fun kv => info_ok kv.2) r.

(** The keyword, stripped and lower-cased, occurs in the lower-cased
    payload. *)
Definition keyword_occurs (payload c : string) : Prop :=
  occurs_in (lower (strip c)) (lower payload).

(** An agent other than the librarian with a keyword that occurs. *)
Definition agent_matches (payload : string) (kv : string * agent_info) : Prop :=
  kv.1 ≠ librarian_id /\ Exists (keyword_occurs payload) (capabilities kv.2).

(** Routing as the specification words it: the payload is lower-cased,
    the agents are visited in map order, [self_id] is skipped, and the
    first agent with a keyword that occurs case-insensitively in the
    payload is returned, [self_id] if there is none. *)
Fixpoint route_as_specified (self_id payload_lower : string) (r : roster_t) : string :=
  match r with
  | [] => self_id
  | (agent_id, agent_info) :: r' =>
      if String.eqb agent_id self_id then route_as_specified self_id payload_lower r'
      else if existsb (fun c => contains payload_lower (lower c)) (capabilities agent_info)
           then agent_id
           else route_as_specified self_id payload_lower r'
  end.

(** A capability map with whitespace around its keyword. *)
Definition padded_roster : roster_t :=
  [("writer", AgentInfo "writer" [" report "] [])].

(** ** Sample bus states *)

Definition ping : gmap string string := <["type" := "PING"]> ∅.

(** [a = A2A("worker"); a.on("PING", h0)], never started. *)
Definition never_started : Bus.a2a_class handler :=
  let (a, c) := Bus.init "worker" Bus.empty_class in
  Bus.on a "PING" (Listener 0) c.

(** The same agent, started and then stopped. *)
Definition stopped : Bus.a2a_class handler :=
  let (a, c) := Bus.init "worker" Bus.empty_class in
  Bus.stop a (Bus.start a (Bus.on a "PING" (Listener 0) c)).

(** [a = A2A("worker"); a.on("PING", h1); a.on("PING", h2); a.start()] *)
Definition two_handlers : Bus.a2a_class handler :=
  let (a, c) := Bus.init "worker" Bus.empty_class in
  Bus.start a (Bus.on a "PING" (Listener 2) (Bus.on a "PING" (Listener 1) c)).

(** [a = A2A("worker"); a.on("PING", h0); a.on("PING", h0); a.start()] *)
Definition same_handler_twice : Bus.a2a_class handler :=
  let (a, c) := Bus.init "worker" Bus.empty_class in
  Bus.start a (Bus.on a "PING" (Listener 0) (Bus.on a "PING" (Listener 0) c)).

(** [Manager(...)] without [start()]: the librarian is constructed and has
    registered its listeners, and no agent is running. *)
Definition constructed : world :=
  ((new_a2a "manager" ;; librarian_init)
     (new_process {[ roster_path := demo_roster ]} [])).2.

(** The handlers called, in order, as recorded in [calls]. *)
Definition called (w : world) : list handler := (calls w).*1.

Definition status_of (t : string) (w : world) : option status_t :=
  status <$> active_tasks w !! t.

(** ** The task life cycle *)

(** [ROUTING < DELEGATED < COMPLETED] *)
Definition rank (st : status_t) : nat :=
  match st with Routing => 0 | Delegated => 1 | Completed => 2 end.


(** No task of the active set is left in ROUTING. *)
Definition settled (w : world) : Prop :=
  forall t tk, active_tasks w !! t = Some tk -> status tk ≠ Routing.

(** The message makes [_handle_new_task] work on a task id other than [t]:
    it carries a task id, which is not [t]. (Without one the handler
    generates the id.) *)
Definition names_other (t : string) (m : gmap string string) : Prop :=
  exists t', m !! "task_id" = Some t' /\ truthy t' = true /\ t' ≠ t.

(** Among the calls [cs], [_handle_new_task] is not called for [t]. *)
Definition spares (t : string) (cs : list (handler * gmap string string)) : Prop :=
  forall m, (LibNewTask, m) ∈ cs -> names_other t m.

(** How the entry of one task id may differ between two states: a task is
    not created, and a task that stays does not move backwards. *)
Definition task_evolves (before after : option task) : Prop :=
  match before, after with
  | Some tk, Some tk' => rank (status tk) <= rank (status tk')
  | None, Some _ => False
  | _, None => True
  end.

(** What a run that made the calls [cs] may have done: the bus and the
    roster are untouched, no task is left in ROUTING, and the tasks that
    [cs] spares evolve. *)
Definition evolves (cs : list (handler * gmap string string)) (w w' : world) : Prop :=
  a2a w' = a2a w /\ roster w' = roster w /\
  (settled w -> settled w') /\
  forall t, spares t cs -> task_evolves (active_tasks w !! t) (active_tasks w' !! t).

Definition run_evolves (w w' : world) : Prop :=
  exists cs, calls w' = calls w ++ cs /\ evolves cs w w'.






(** ** Bus states in which each agent id has one object *)

Section OneObject.
Context {H : Type}.

(** The class tables after any sequence of constructions (each under a
    new agent id), registrations, starts and stops. *)
Inductive built : Bus.a2a_class H -> Prop :=
| built_empty : built Bus.empty_class
| built_init agent c :
    built c -> Bus.instances c !! agent = None -> built (Bus.init agent c).2
| built_on self event_type h c : built c -> built (Bus.on self event_type h c)
| built_set_running b self c : built c -> built (Bus.set_running b self c).

(** The object table and the class table hold the same registrations. *)
Definition mirrored (c : Bus.a2a_class H) : Prop :=
  (forall agent self, Bus.instances c !! agent = Some self ->
     exists o, Bus.objects c !! self = Some o /\ Bus.agent_id o = agent) /\
  (forall agent event_type, Bus.instances c !! agent = None ->
     Bus.global_targets c agent event_type = []) /\
  (forall self o, Bus.objects c !! self = Some o ->
     Bus.instances c !! Bus.agent_id o = Some self /\
     forall event_type,
       Bus.global_targets c (Bus.agent_id o) event_type
       = default [] (Bus.handlers o !! event_type)).
End OneObject.

(** ** More sample states *)

(** A probe that is not started, with a second listener registered after
    its own, on a file system whose next call fails. *)
Definition probe_then_listener : world :=
  ((p <- probe_init ;; modify (set_a2a (Bus.on p "DELEGATED_TASK" (Listener 7))))
     (new_process ∅ [IoFails])).2.

(** What [send], with [fuel] left for the handlers, does to call one
    handler. *)
Definition call_handler (fuel : nat) (h : handler) (d : gmap string string)
    (w : world) : option exn * world :=
  to_opt (run_handler (send fuel) h d (log_call h d w)).

(** ** Task ids *)

(** The id that [generate_task_id] builds from the value of the counter. *)
Definition task_id_text (n : nat) : string := "TASK-" +:+ pad3 (decimal n).

(** Reads the number back from an id ["TASK-<digits>"]. *)
Definition task_number (id : string) : option nat :=
  if startswith id "TASK-"
  then Nat.of_uint <$> NilEmpty.uint_of_string (drop_chars 5 id)
  else None.

(** ** More on the roster *)

(** The test for an agent header, [## agent_id]. *)
Definition is_agent_header (line : string) : bool :=
  startswith (strip line) "##" && negb (startswith (strip line) "###").

(** The agent ids of a roster, in its order. *)
Definition roster_keys (r : roster_t) : list string := r.*1.

(** The roster with every capability keyword lower-cased. *)
Definition lower_keywords (r : roster_t) : roster_t :=
  (fun kv => (kv.1, AgentInfo (info_agent_id kv.2)
                              (lower <$> capabilities kv.2) (permissions kv.2))) <$> r.

(** A roster document without any agent header. *)
Definition headerless_roster : string :=
  "capabilities:
  - report
### writer
  - review
".

(** What holds of the agents of a parsed roster: distinct ids, none empty,
    each stripped and repeated in its record. *)
Definition keys_ok (r : roster_t) : Prop :=
  NoDup (roster_keys r) /\
  Forall (fun kv => kv.1 ≠ EmptyString /\ strip kv.1 = kv.1 /\ info_agent_id kv.2 = kv.1) r.

(** The state of the parser after the sample roster, and that roster with
    a keyword in capitals. *)
Definition after_demo_roster : parse_state :=
  ParseState (load_roster (Some demo_roster)) (Some "probe") (Some Capabilities).

Definition shouting_roster : roster_t :=
  [("librarian", AgentInfo "librarian" ["report"] []);
   ("writer", AgentInfo "writer" ["REPORT"; "Review"] [])].




(** ** Instructions: [adk/instruction.py] *)

Record instruction := Instruction {
  ins_context : string;
  ins_goal : string;
  ins_rules : list string
}.

(** [Instruction(context, goal, rules)]: [rules or []]. *)
Definition new_instruction (context goal : string) (rules : option (list string)) :
    instruction :=
  Instruction context goal (default [] rules).

(** [sep.join(parts)] *)
Fixpoint join_with (sep : string) (parts : list string) : string :=
  match parts with
  | [] => EmptyString
  | [p] => p
  | p :: rest => p +:+ sep +:+ join_with sep rest
  end.

(** The list [parts] that [to_text] builds. *)
Definition text_parts (i : instruction) : list string :=
  (if truthy (ins_context i) then ["Context:" +:+ nl +:+ ins_context i] else []) ++
  (if truthy (ins_goal i) then ["Goal:" +:+ nl +:+ ins_goal i] else []) ++
  (match ins_rules i with
   | [] => []
   | rules => "Rules:" :: ((fun rule => "- " +:+ rule) <$> rules)
   end).

(** [Instruction.to_text] *)
Definition to_text (i : instruction) : string := join_with (nl +:+ nl) (text_parts i).

(** [s1 + s2 + ...] *)
Fixpoint concat_strings (parts : list string) : string :=
  match parts with
  | [] => EmptyString
  | p :: rest => p +:+ concat_strings rest
  end.

(** * Properties *)

(** ** Validation in [send] *)

Lemma send_unfold fuel to_agent message w :
  send fuel to_agent message w =
  of_opt (Bus.send a2a
            (fun h d w' =>
               match fuel with
               | O => (Some OutOfFuel, w')
               | S fuel' => to_opt (run_handler (send fuel') h d (log_call h d w'))
               end) to_agent message w).
Proof. destruct fuel; reflexivity. Qed.

Lemma bus_send_invalid {H W} (get_class : W -> Bus.a2a_class H) call to_agent message e w :
  check_message message = inl e ->
  Bus.send get_class call to_agent message w = (Some e, w).
Proof. intros Hc. unfold Bus.send. rewrite Hc. reflexivity. Qed.

Lemma send_invalid fuel to_agent message e w :
  check_message message = inl e ->
  send fuel to_agent message w = (Raised e, w).
Proof.
  intros Hc. rewrite send_unfold, (bus_send_invalid _ _ _ _ e) by exact Hc.
  reflexivity.
Qed.

(** C9. A [message] that is not a [dict] makes [send] raise
    [ValueError("Message must be a dictionary")], the error of the first
    check and not that of the check of the type field, with the state as it
    was: no handler has been called (the record of calls is the same), no
    registration, task or file has changed. This holds for the bus over any
    state and any handlers, and for the system's [send] at any fuel. *)
Theorem send_non_dict_raises (message : pyval) (to_agent : string) :
  is_dict message = false ->
  (forall (H W : Type) (get_class : W -> Bus.a2a_class H)
          (call : H -> gmap string string -> W -> option exn * W) (w : W),
      Bus.send get_class call to_agent message w
      = (Some (ValueError "Message must be a dictionary"), w)) /\
  (forall fuel w,
      send fuel to_agent message w
      = (Raised (ValueError "Message must be a dictionary"), w)).
Proof.
  intros Hd.
  assert (Hc : check_message message
               = inl (ValueError "Message must be a dictionary")).
  { destruct message; try reflexivity. discriminate Hd. }
  split; intros.
  - apply bus_send_invalid, Hc.
  - apply send_invalid, Hc.
Qed.

Lemma send_non_dict_raises_witness :
  is_dict (PyStr "NEW_TASK") = false /\
  send 3 librarian_id (PyStr "NEW_TASK") booted
  = (Raised (ValueError "Message must be a dictionary"), booted).
Proof.
  split; [reflexivity |].
  apply (send_non_dict_raises (PyStr "NEW_TASK") librarian_id); reflexivity.
Defined.

(** C7. A message without a ['type'] key makes [send] raise a [ValueError]
    to its caller, whatever the target agent, with the state as it was: no
    handler is called before the failure and none after it. For a [dict]
    the error is that of the check of the type field. *)
Theorem send_without_type_raises (message : pyval) (to_agent : string) :
  has_type message = false ->
  exists msg,
    (is_dict message = true -> msg = "Message must contain 'type' field") /\
    (forall (H W : Type) (get_class : W -> Bus.a2a_class H)
            (call : H -> gmap string string -> W -> option exn * W) (w : W),
        Bus.send get_class call to_agent message w = (Some (ValueError msg), w)) /\
    (forall fuel w,
        send fuel to_agent message w = (Raised (ValueError msg), w)).
Proof.
  intros Ht.
  assert (Hc : exists msg,
             (is_dict message = true -> msg = "Message must contain 'type' field") /\
             check_message message = inl (ValueError msg)).
  { destruct message as [| | | |d];
      try (exists "Message must be a dictionary"; split; [discriminate | reflexivity]).
    exists "Message must contain 'type' field". split; [reflexivity |].
    simpl in *. destruct (d !! "type") eqn:E; [|reflexivity].
    rewrite bool_decide_eq_false in Ht. destruct Ht. eauto. }
  destruct Hc as (msg & Hm & Hc). exists msg. split; [exact Hm |].
  split; intros.
  - apply bus_send_invalid, Hc.
  - apply send_invalid, Hc.
Qed.

Lemma send_without_type_raises_witness :
  has_type (PyDict (<["task_id" := "TASK-001"]> ∅)) = false /\
  send 3 librarian_id (PyDict (<["task_id" := "TASK-001"]> ∅)) booted
  = (Raised (ValueError "Message must contain 'type' field"), booted).
Proof.
  split; [reflexivity |].
  destruct (send_without_type_raises (PyDict (<["task_id" := "TASK-001"]> ∅))
              librarian_id) as (msg & Hm & _ & Hs); [reflexivity |].
  rewrite Hs, Hm; reflexivity.
Defined.

(** ** Paths *)

Lemma count_char_app c s1 s2 :
  count_char c (s1 +:+ s2) = count_char c s1 + count_char c s2.
Proof. induction s1 as [|d s1 IH]; simpl; [reflexivity | rewrite IH; lia]. Qed.

(** The artifact of a task is never the aggregate document. *)
Lemma spec_path_not_aggregate agent_id task_id :
  spec_path agent_id task_id ≠ active_spec_path.
Proof.
  unfold spec_path, active_spec_path. intros E.
  apply (f_equal (count_char "_")) in E.
  rewrite !count_char_app in E. simpl in E. lia.
Qed.

(** ** The consolidation pipeline *)

Lemma cleanup_task_spec task_id w :
  cleanup_task task_id w =
  (Ok tt, set_completion_queue (filter (fun item => item.2 ≠ task_id))
            (set_active_tasks (delete task_id) w)).
Proof. reflexivity. Qed.




Ltac run_io :=
  unfold delete_best_effort, try_except in *;
  unfold read_file, write_file, delete_file,
    open_read, open_write, unlink, mkdir, path_exists, next_io, bind, gets,
    modify, ret, raise in *.

Ltac split_io w :=
  let o := fresh "o" in
  let os := fresh "os" in
  destruct (io w) as [|o os]; [|destruct o]; simpl in *.

Lemma same_agents_refl w : same_agents w w.
Proof. repeat split. Qed.

Lemma same_agents_trans w1 w2 w3 :
  same_agents w1 w2 -> same_agents w2 w3 -> same_agents w1 w3.
Proof. unfold same_agents. intros H1 H2. intuition congruence. Qed.

Lemma read_file_inv p w r w' :
  read_file p w = (r, w') ->
  same_agents w w' /\ files w' = files w /\
  (forall c, r = Ok c -> files w !! p = Some c).
Proof.
  run_io. destruct (files w !! p) as [c|] eqn:E; simpl.
  - split_io w; try rewrite E; intros [= <- <-];
      (split; [apply same_agents_refl || (repeat split) |]);
      (split; [reflexivity |]); intros c' [=]; congruence.
  - intros [= <- <-]. split; [apply same_agents_refl |].
    split; [reflexivity |]. intros c' [=].
Qed.

Lemma is_Some_Some_true {A} (x : A) : bool_decide (is_Some (Some x)) = true.
Proof. apply bool_decide_eq_true_2. eauto. Qed.

Lemma is_Some_None_false {A} : bool_decide (is_Some (@None A)) = false.
Proof. apply bool_decide_eq_false_2. intros [? ?]. discriminate. Qed.

Ltac case_io1 :=
  match goal with
  | |- context [match io ?w with [] => _ | _ :: _ => _ end] =>
      let o := fresh "o" in destruct (io w) as [|o ?]; [|destruct o]
  | |- context [match ?l with [] => _ | _ :: _ => _ end] =>
      is_var l; let o := fresh "o" in destruct l as [|o ?]; [|destruct o]
  end.

(** Runs a sequence of file-system calls on every outcome list; [E] is the
    known content of the one path the calls look up. *)
Ltac crunch_io E :=
  repeat (simpl; rewrite ?E, ?is_Some_Some_true, ?is_Some_None_false; simpl;
          try case_io1).

Lemma append_to_active_spec_inv content agent_id task_id w r w' :
  append_to_active_spec content agent_id task_id w = (r, w') ->
  same_agents w w' /\
  (forall q, q ≠ active_spec_path -> files w' !! q = files w !! q).
Proof.
  unfold append_to_active_spec. run_io.
  destruct (files w !! active_spec_path) as [agg|] eqn:E;
    crunch_io E; intros [= <- <-];
    (split; [repeat split |]); intros q Hq; simpl;
    try reflexivity; apply lookup_insert_ne; congruence.
Qed.

Lemma verify_consolidation_inv content w r w' :
  verify_consolidation content w = (r, w') ->
  same_agents w w' /\ files w' = files w /\
  (forall b, r = Ok b ->
     b = match files w !! active_spec_path with
         | Some aggregate => contains aggregate (strip content)
         | None => false
         end).
Proof.
  unfold verify_consolidation. run_io.
  destruct (files w !! active_spec_path) as [agg|] eqn:E;
    crunch_io E; intros [= <- <-];
    (split; [repeat split |]); (split; [reflexivity |]);
    intros b [=]; congruence.
Qed.

Lemma delete_best_effort_inv p w r w' :
  delete_best_effort p w = (r, w') ->
  r = Ok tt /\ same_agents w w' /\
  (files w' = files w \/ files w' = delete p (files w)).
Proof.
  run_io.
  destruct (files w !! p) as [c|] eqn:E;
    crunch_io E; intros [= <- <-];
    (split; [reflexivity |]); (split; [repeat split |]); simpl; auto.
Qed.

Lemma bind_run {A B} (m : M A) (k : A -> M B) w :
  bind m k w = match m w with
               | (Ok a, w') => k a w'
               | (Raised e, w') => (Raised e, w')
               end.
Proof. reflexivity. Qed.




(** ** Strings *)

Lemma startswith_correct s p :
  startswith s p = true <-> exists post, s = p +:+ post.
Proof.
  revert s. induction p as [|c p IH]; intros s; simpl.
  - split; [intros _; exists s; reflexivity | reflexivity].
  - destruct s as [|d s].
    + split; [discriminate | intros [post [=]]].
    + rewrite andb_true_iff, IH. split.
      * intros [Hc [post ->]]. apply Ascii.eqb_eq in Hc. subst. eauto.
      * intros [post [= -> ->]]. split; [apply Ascii.eqb_refl | eauto].
Qed.

(** [contains] decides the declarative reading of [in]. *)
Lemma contains_correct s needle :
  contains s needle = true <-> occurs_in needle s.
Proof.
  unfold occurs_in. induction s as [|d s IH]; simpl.
  - rewrite orb_false_r, startswith_correct. split.
    + intros [post E]. exists EmptyString, post. exact E.
    + intros [pre [post E]]. destruct pre; simpl in E; [eauto | discriminate].
  - rewrite orb_true_iff, startswith_correct, IH. split.
    + intros [[post E] | [pre [post E]]].
      * exists EmptyString, post. exact E.
      * exists (String d pre), post. rewrite E. reflexivity.
    + intros [pre [post E]]. destruct pre as [|c pre]; simpl in E.
      * left. eauto.
      * right. injection E as -> ->. eauto.
Qed.

Lemma contains_empty_needle s : contains s EmptyString = true.
Proof. destruct s; reflexivity. Qed.

Lemma contains_in_empty needle : contains EmptyString needle = negb (truthy needle).
Proof. destruct needle; reflexivity. Qed.

Lemma truthy_lower s : truthy (lower s) = truthy s.
Proof. destruct s; reflexivity. Qed.

Lemma truthy_true s : truthy s = true <-> s ≠ EmptyString.
Proof. destruct s; simpl; split; congruence. Qed.

Lemma rstrip_keeps_head c s :
  is_space c = false -> rstrip (String c s) = String c (rstrip s).
Proof. intros Hc. simpl. destruct (rstrip s); [rewrite Hc|]; reflexivity. Qed.

Lemma rstrip_idem s : rstrip (rstrip s) = rstrip s.
Proof.
  induction s as [|c s IH]; [reflexivity |]. simpl.
  destruct (rstrip s) as [|d r] eqn:E.
  - destruct (is_space c) eqn:Hc; [reflexivity |]. simpl. rewrite Hc. reflexivity.
  - change (rstrip (String c (String d r)) = String c (String d r)).
    simpl in IH. simpl. destruct (match rstrip r with
                                  | EmptyString => if is_space d then EmptyString else String d EmptyString
                                  | String a s0 => String d (String a s0) end) eqn:E2.
    + discriminate IH.
    + rewrite IH. reflexivity.
Qed.

Lemma lstrip_head s : lstrip s = EmptyString \/ exists c r, lstrip s = String c r /\ is_space c = false.
Proof.
  induction s as [|c s IH]; simpl; [auto |].
  destruct (is_space c) eqn:Hc; [exact IH | right; eauto].
Qed.

(** What [strip] returns is already stripped. *)
Lemma strip_idem s : strip (strip s) = strip s.
Proof.
  unfold strip. destruct (lstrip_head s) as [E | (c & r & E & Hc)]; rewrite E.
  - reflexivity.
  - rewrite (rstrip_keeps_head _ _ Hc). simpl lstrip. rewrite Hc.
    rewrite (rstrip_keeps_head _ _ Hc), rstrip_idem. reflexivity.
Qed.

(** ** The roster parser *)

Lemma dict_set_ok k v (r : roster_t) :
  roster_ok r -> info_ok v -> roster_ok (dict_set k v r).
Proof.
  unfold roster_ok. intros Hr Hv. induction r as [|[k' v'] r IH]; simpl.
  - constructor; [exact Hv | constructor].
  - inversion Hr; subst. destruct (String.eqb k k'); constructor; auto.
Qed.

Lemma dict_update_ok k f (r : roster_t) :
  roster_ok r -> (forall v, info_ok v -> info_ok (f v)) -> roster_ok (dict_update k f r).
Proof.
  unfold roster_ok. intros Hr Hf. induction r as [|[k' v'] r IH]; simpl.
  - constructor.
  - inversion Hr; subst. destruct (String.eqb k k'); constructor; simpl; auto.
Qed.

Lemma append_item_ok sec item i :
  keyword_ok item -> info_ok i -> info_ok (append_item sec item i).
Proof.
  intros Hk [Hc Hp]. destruct sec; split; simpl; auto;
    apply Forall_app; split; auto.
Qed.

Lemma stripped_item_ok s : truthy (strip s) = true -> keyword_ok (strip s).
Proof. intros H. split; [apply truthy_true, H | apply strip_idem]. Qed.

Lemma roster_line_ok st line :
  roster_ok (agents st) -> roster_ok (agents (roster_line st line)).
Proof.
  intros Hr. unfold roster_line.
  destruct (startswith (strip line) "##" && negb (startswith (strip line) "###")).
  - cbn [agents]. destruct (truthy (strip (drop_chars 2 (strip line)))); [|exact Hr].
    apply dict_set_ok; [exact Hr |]. split; constructor.
  - destruct (agent_set (current_agent st) && contains (strip line) ":"
              && negb (startswith (strip line) "-")).
    + destruct (contains (lower (strip line)) "capabilities"); [exact Hr |].
      destruct (contains (lower (strip line)) "permissions"); exact Hr.
    + destruct (current_agent st) as [a|]; [|exact Hr].
      destruct (current_section st) as [sec|]; [|exact Hr].
      destruct (truthy a && startswith (strip line) "-"); [|exact Hr].
      destruct (truthy (strip (drop_chars 1 (strip line)))) eqn:E; [|exact Hr].
      cbn [agents]. apply dict_update_ok; [exact Hr |].
      intros v. apply append_item_ok, stripped_item_ok, E.
Qed.

Lemma fold_roster_line_ok lines st :
  roster_ok (agents st) -> roster_ok (agents (fold_left roster_line lines st)).
Proof.
  revert st. induction lines as [|l lines IH]; intros st Hr; simpl; [exact Hr |].
  apply IH, roster_line_ok, Hr.
Qed.

(** Every keyword of a parsed roster is stored stripped and not empty. *)
Lemma load_roster_ok file : roster_ok (load_roster file).
Proof.
  destruct file as [content|]; simpl; [|constructor].
  apply fold_roster_line_ok. constructor.
Qed.

Lemma keyword_ok_lower c : keyword_ok c -> lower (strip c) ≠ EmptyString.
Proof.
  intros [Hne Hs]. rewrite Hs. apply truthy_true. rewrite truthy_lower.
  apply truthy_true, Hne.
Qed.

Lemma no_hit_in_empty_payload c :
  keyword_ok c -> capability_hits EmptyString c = false.
Proof.
  intros Hk. unfold capability_hits. rewrite contains_in_empty.
  apply keyword_ok_lower, truthy_true in Hk. rewrite Hk. reflexivity.
Qed.

Lemma route_loop_empty_payload r :
  roster_ok r -> route_loop EmptyString r = librarian_id.
Proof.
  induction r as [|[a i] r IH]; intros Hr; simpl; [reflexivity |].
  inversion Hr as [|? ? [Hc _] Hr']; subst.
  destruct (String.eqb a librarian_id); [auto |].
  replace (existsb (capability_hits EmptyString) (capabilities i)) with false; [auto |].
  symmetry. apply not_true_is_false. rewrite existsb_exists.
  intros (c & Hin & Hhit). simpl in Hc. rewrite Forall_forall in Hc.
  rewrite no_hit_in_empty_payload in Hhit; [discriminate |].
  apply Hc. apply list_elem_of_In. exact Hin.
Qed.

(** C10. Whatever the roster document (or without one), every capability
    and every permission keyword of the parsed map is non-empty, is stored
    stripped, and is still non-empty once the router has stripped and
    lower-cased it (a blank bullet item is dropped by the parser). So a
    keyword of the parsed map only hits a payload in which it occurs as a
    non-empty substring: no payload is matched vacuously, and the empty
    payload is routed to the librarian itself. *)
Theorem parsed_keywords_not_blank (file : option string) :
  Forall (fun kv =>
            Forall (fun c => c ≠ EmptyString /\ strip c = c /\
                             lower (strip c) ≠ EmptyString)
                   (capabilities kv.2 ++ permissions kv.2))
         (load_roster file) /\
  (forall agent info c payload,
      (agent, info) ∈ load_roster file -> c ∈ capabilities info ->
      capability_hits (lower payload) c = true ->
      lower (strip c) ≠ EmptyString /\
      occurs_in (lower (strip c)) (lower payload) /\
      payload ≠ EmptyString) /\
  route_task (load_roster file) EmptyString = librarian_id.
Proof.
  pose proof (load_roster_ok file) as Hr. split; [|split].
  - unfold roster_ok in Hr. eapply Forall_impl; [exact Hr |].
    intros [a i] [Hc Hp]. simpl in *. apply Forall_app. split.
    + eapply Forall_impl; [exact Hc |]. intros c Hk.
      pose proof (keyword_ok_lower _ Hk). destruct Hk. auto.
    + eapply Forall_impl; [exact Hp |]. intros c Hk.
      pose proof (keyword_ok_lower _ Hk). destruct Hk. auto.
  - intros agent info c payload Hin Hc Hhit.
    unfold roster_ok in Hr. rewrite Forall_forall in Hr.
    destruct (Hr _ Hin) as [Hcaps _]. simpl in Hcaps.
    rewrite Forall_forall in Hcaps. specialize (Hcaps _ Hc).
    pose proof (keyword_ok_lower _ Hcaps) as Hne.
    split; [exact Hne |]. unfold capability_hits in Hhit.
    apply contains_correct in Hhit. split; [exact Hhit |].
    intros ->. destruct Hhit as (pre & post & E). simpl in E.
    destruct pre; simpl in E; [|discriminate].
    destruct (lower (strip c)); [congruence | discriminate].
  - apply route_loop_empty_payload, Hr.
Qed.

(** ** The router *)

Lemma capability_hits_iff payload c :
  capability_hits (lower payload) c = true <-> keyword_occurs payload c.
Proof. unfold capability_hits, keyword_occurs. apply contains_correct. Qed.

Lemma existsb_hits payload caps :
  existsb (capability_hits (lower payload)) caps = true <->
  Exists (keyword_occurs payload) caps.
Proof.
  rewrite existsb_exists, Exists_exists. split.
  - intros (c & Hin & Hh). exists c. split; [apply list_elem_of_In, Hin |].
    apply capability_hits_iff, Hh.
  - intros (c & Hin & Hh). exists c. split; [apply list_elem_of_In, Hin |].
    apply capability_hits_iff, Hh.
Qed.

Lemma route_loop_first_match payload r :
  (exists pre a info post,
      r = pre ++ (a, info) :: post /\
      Forall (fun kv => ~ agent_matches payload kv) pre /\
      agent_matches payload (a, info) /\
      route_loop (lower payload) r = a) \/
  (Forall (fun kv => ~ agent_matches payload kv) r /\
   route_loop (lower payload) r = librarian_id).
Proof.
  induction r as [|[a i] r IH]; simpl.
  - right. split; [constructor | reflexivity].
  - destruct (String.eqb a librarian_id) eqn:Ea.
    + apply String.eqb_eq in Ea.
      assert (Hno : ~ agent_matches payload (a, i)) by (intros [Hne _]; auto).
      destruct IH as [(pre & a' & i' & post & -> & Hpre & Hm & Hr) | [Hall Hr]].
      * left. exists ((a, i) :: pre), a', i', post. repeat split; auto.
        apply Hm. apply Hm.
      * right. split; [constructor; auto | exact Hr].
    + apply String.eqb_neq in Ea.
      destruct (existsb (capability_hits (lower payload)) (capabilities i)) eqn:Eh.
      * left. exists [], a, i, r. repeat split; auto.
        apply existsb_hits, Eh.
      * assert (Hno : ~ agent_matches payload (a, i)).
        { intros [_ Hex]. apply existsb_hits in Hex. simpl in Hex. congruence. }
        destruct IH as [(pre & a' & i' & post & -> & Hpre & Hm & Hr) | [Hall Hr]].
        -- left. exists ((a, i) :: pre), a', i', post. repeat split; auto.
           apply Hm. apply Hm.
        -- right. split; [constructor; auto | exact Hr].
Qed.

Lemma route_loop_as_specified payload_lower r :
  roster_ok r ->
  route_loop payload_lower r = route_as_specified librarian_id payload_lower r.
Proof.
  induction r as [|[a i] r IH]; intros Hr; simpl; [reflexivity |].
  inversion Hr as [|? ? [Hc _] Hr']; subst. simpl in Hc.
  rewrite (IH Hr').
  replace (existsb (capability_hits payload_lower) (capabilities i))
    with (existsb (fun c => contains payload_lower (lower c)) (capabilities i));
    [reflexivity |].
  clear -Hc. induction Hc as [|c cs [_ Hs] _ IHc]; simpl; [reflexivity |].
  unfold capability_hits at 1. rewrite Hs, IHc. reflexivity.
Qed.

(** C5, as stated, fails: with the keyword [" report "] the router sends
    the payload ["report"] to ["writer"], although the keyword does not
    occur in the payload, case-insensitively or otherwise; routing as the
    specification words it returns the librarian. *)
Lemma route_task_padded_keyword :
  route_task padded_roster "report" = "writer" /\
  ~ Exists (fun c => occurs_in (lower c) (lower "report")) [" report "] /\
  route_as_specified librarian_id (lower "report") padded_roster = librarian_id.
Proof.
  split; [reflexivity |]. split; [|reflexivity].
  rewrite Exists_cons, Exists_nil. intros [H | []].
  apply contains_correct in H. discriminate H.
Qed.

(** C5, amended. Routing lower-cases the payload, visits the agents in map
    order, skips the librarian's own id, and returns the first agent one
    of whose capability keywords, stripped of surrounding whitespace and
    lower-cased, occurs as a substring of the lower-cased payload; when no
    agent matches, as for the empty map, it returns the librarian's id.
    The result is a function of the payload and the map. On a map whose
    keywords are stored stripped, as the parser stores them, stripping
    changes nothing and routing is as the specification words it. *)
Theorem route_task_first_stripped_match (r : roster_t) (payload : string) :
  route_task [] payload = librarian_id /\
  ((exists pre a info post,
       r = pre ++ (a, info) :: post /\
       Forall (fun kv => ~ agent_matches payload kv) pre /\
       agent_matches payload (a, info) /\
       route_task r payload = a) \/
   (Forall (fun kv => ~ agent_matches payload kv) r /\
    route_task r payload = librarian_id)) /\
  (roster_ok r ->
   route_task r payload = route_as_specified librarian_id (lower payload) r).
Proof.
  split; [reflexivity |]. split.
  - apply route_loop_first_match.
  - apply route_loop_as_specified.
Qed.

(** ** What the pipeline does to the task set *)

(** The pipeline either leaves the active set and the completion queue as
    they were, or returns normally having run [_cleanup_task]; it touches
    neither the bus, the roster, the task counter nor the record of calls. *)
Lemma collect_and_consolidate_spec_inv agent_id task_id w r w' :
  collect_and_consolidate_spec agent_id task_id w = (r, w') ->
  a2a w' = a2a w /\ roster w' = roster w /\ task_counter w' = task_counter w /\
  calls w' = calls w /\
  ((active_tasks w' = active_tasks w /\ completion_queue w' = completion_queue w) \/
   (r = Ok tt /\ active_tasks w' = delete task_id (active_tasks w) /\
    completion_queue w' =
      filter (fun item => item.2 ≠ task_id) (completion_queue w))).
Proof.
  assert (Hclean : forall w0 r0 w0',
             same_agents w w0 -> cleanup_task task_id w0 = (r0, w0') ->
             a2a w0' = a2a w /\ roster w0' = roster w /\
             task_counter w0' = task_counter w /\ calls w0' = calls w /\
             ((active_tasks w0' = active_tasks w /\
               completion_queue w0' = completion_queue w) \/
              (r0 = Ok tt /\ active_tasks w0' = delete task_id (active_tasks w) /\
               completion_queue w0' =
                 filter (fun item => item.2 ≠ task_id) (completion_queue w)))).
  { intros w0 r0 w0' (S1 & S2 & S3 & S4 & S5 & S6) Hc.
    rewrite cleanup_task_spec in Hc. injection Hc as <- <-. simpl.
    rewrite S1, S2, S3, S4, S5, S6. repeat split; auto. }
  assert (Hkeep : forall w0, same_agents w w0 ->
             a2a w0 = a2a w /\ roster w0 = roster w /\
             task_counter w0 = task_counter w /\ calls w0 = calls w /\
             active_tasks w0 = active_tasks w /\
             completion_queue w0 = completion_queue w).
  { intros w0 (S1 & S2 & S3 & S4 & S5 & S6). repeat split; assumption. }
  unfold collect_and_consolidate_spec. cbv zeta.
  rewrite bind_run. unfold path_exists at 1, gets at 1.
  destruct (files w !! spec_path agent_id task_id) as [c0|] eqn:E.
  2:{ rewrite is_Some_None_false. cbn [negb]. apply Hclean, same_agents_refl. }
  rewrite is_Some_Some_true. cbn [negb].
  rewrite bind_run. unfold try_except at 1. rewrite bind_run.
  destruct (read_file (spec_path agent_id task_id) w) as [r1 w1] eqn:Hread.
  destruct (read_file_inv _ _ _ _ Hread) as (S1 & _ & _).
  destruct r1 as [c|e]; unfold ret at 1; [|apply Hclean, S1].
  destruct (truthy (strip c)); cbn [negb].
  2:{ rewrite bind_run.
      destruct (delete_best_effort (spec_path agent_id task_id) w1) as [r2 w2] eqn:Hd.
      destruct (delete_best_effort_inv _ _ _ _ Hd) as (-> & S2 & _).
      apply Hclean. eauto using same_agents_trans. }
  rewrite bind_run. unfold try_except at 1. rewrite bind_run.
  destruct (append_to_active_spec c agent_id task_id w1) as [r2 w2] eqn:Happ.
  destruct (append_to_active_spec_inv _ _ _ _ _ _ Happ) as (S2 & _).
  assert (S12 : same_agents w w2) by eauto using same_agents_trans.
  destruct r2 as [[]|e]; unfold ret at 1; cbn [negb].
  2:{ intros [= <- <-]. destruct (Hkeep _ S12) as (?&?&?&?&?&?). auto 10. }
  rewrite bind_run.
  destruct (verify_consolidation c w2) as [r3 w3] eqn:Hver.
  destruct (verify_consolidation_inv _ _ _ _ Hver) as (S3 & _ & _).
  assert (S13 : same_agents w w3) by eauto using same_agents_trans.
  destruct r3 as [b|e].
  2:{ intros [= <- <-]. destruct (Hkeep _ S13) as (?&?&?&?&?&?). auto 10. }
  rewrite bind_run. destruct b.
  - destruct (delete_best_effort (spec_path agent_id task_id) w3) as [r4 w4] eqn:Hd.
    destruct (delete_best_effort_inv _ _ _ _ Hd) as (-> & S4 & _).
    apply Hclean. eauto using same_agents_trans.
  - unfold ret at 1. apply Hclean, S13.
Qed.

(** A TASK_COMPLETE for a task that the active set holds as COMPLETED is
    ignored: the handler returns at once and the state is as it was. *)
Lemma handle_task_complete_of_completed message task_id tk w :
  message !! "task_id" = Some task_id ->
  active_tasks w !! task_id = Some tk -> status tk = Completed ->
  handle_task_complete message w = (Ok tt, w).
Proof.
  intros Ht Hk Hs. unfold handle_task_complete. rewrite Ht.
  destruct (falsy (message !! "agent_id") || falsy (Some task_id)); [reflexivity |].
  cbv zeta. change (default "" (Some task_id)) with task_id.
  rewrite bind_run. unfold gets at 1. rewrite Hk, Hs. reflexivity.
Qed.

(** The true half of C1: when the append raises, the pipeline returns
    normally without cleanup; the artifact is still there with its content
    and the active set and the completion queue are as they were. *)
Lemma failed_append_keeps_artifact_and_task agent_id task_id w spec_content w1 e w2 :
  read_file (spec_path agent_id task_id) w = (Ok spec_content, w1) ->
  truthy (strip spec_content) = true ->
  append_to_active_spec spec_content agent_id task_id w1 = (Raised e, w2) ->
  collect_and_consolidate_spec agent_id task_id w = (Ok tt, w2) /\
  files w2 !! spec_path agent_id task_id = Some spec_content /\
  active_tasks w2 = active_tasks w /\
  completion_queue w2 = completion_queue w.
Proof.
  intros Hread Hne Happ.
  destruct (read_file_inv _ _ _ _ Hread) as (S1 & F1 & Hc).
  specialize (Hc _ eq_refl).
  destruct (append_to_active_spec_inv _ _ _ _ _ _ Happ) as (S2 & F2).
  split; [|split; [|split]].
  - unfold collect_and_consolidate_spec. cbv zeta.
    rewrite bind_run. unfold path_exists at 1, gets at 1.
    rewrite Hc, is_Some_Some_true. cbn [negb].
    rewrite bind_run. unfold try_except at 1. rewrite bind_run, Hread.
    unfold ret at 1. rewrite Hne. cbn [negb].
    rewrite bind_run. unfold try_except at 1. rewrite bind_run, Happ.
    reflexivity.
  - rewrite F2 by apply spec_path_not_aggregate. rewrite F1. exact Hc.
  - destruct S1 as (_&_&A1&_), S2 as (_&_&A2&_). congruence.
  - destruct S1 as (_&_&_&Q1&_), S2 as (_&_&_&Q2&_). congruence.
Qed.

(** [_handle_task_complete] on a message that carries both ids. *)
Lemma handle_task_complete_valid message agent_id task_id w :
  message !! "agent_id" = Some agent_id -> message !! "task_id" = Some task_id ->
  truthy agent_id = true -> truthy task_id = true ->
  handle_task_complete message w =
  match active_tasks w !! task_id with
  | Some tk =>
      match status tk with
      | Completed => (Ok tt, w)
      | _ => collect_and_consolidate_spec agent_id task_id
               (set_completion_queue (fun q => q ++ [(agent_id, task_id)])
                  (set_active_tasks (alter (set_status Completed) task_id) w))
      end
  | None =>
      collect_and_consolidate_spec agent_id task_id
        (set_completion_queue (fun q => q ++ [(agent_id, task_id)]) w)
  end.
Proof.
  intros Ha Ht Hta Htt. unfold handle_task_complete. rewrite Ha, Ht.
  unfold falsy. rewrite Hta, Htt. cbn [negb orb]. cbv zeta.
  change (default "" (Some task_id)) with task_id.
  change (default "" (Some agent_id)) with agent_id.
  rewrite bind_run. unfold gets at 1.
  destruct (active_tasks w !! task_id) as [tk|]; [|reflexivity].
  destruct (status tk); reflexivity.
Qed.

(** [_handle_task_complete] on a message that lacks one of the ids. *)
Lemma handle_task_complete_invalid message w :
  falsy (message !! "agent_id") || falsy (message !! "task_id") = true ->
  handle_task_complete message w = (Ok tt, w).
Proof. intros H. unfold handle_task_complete. rewrite H. reflexivity. Qed.

(** C1 fails on the code. Whenever [_handle_task_complete] has run on a
    message with both ids and left the task in the active set, which is
    how an append failure leaves it, the task is stored as COMPLETED, and
    from then on every TASK_COMPLETE carrying the same ids is ignored by
    the duplicate protection, whatever Storage has become in the meantime:
    the handler returns at once, the pipeline is not entered again,
    nothing is appended and the task is not removed. *)
Theorem retained_task_is_never_retried message agent_id task_id w r w' :
  message !! "agent_id" = Some agent_id -> message !! "task_id" = Some task_id ->
  truthy agent_id = true -> truthy task_id = true ->
  is_Some (active_tasks w !! task_id) ->
  handle_task_complete message w = (r, w') ->
  is_Some (active_tasks w' !! task_id) ->
  status_of task_id w' = Some Completed /\
  forall fs o,
    let later := set_io o (set_files (fun _ => fs) w') in
    handle_task_complete message later = (Ok tt, later) /\
    files later = fs /\ status_of task_id later = Some Completed.
Proof.
  intros Ha Ht Hta Htt [tk Hk] Hrun [tk' Hk'].
  assert (Hs : status tk' = Completed).
  { rewrite (handle_task_complete_valid _ _ _ _ Ha Ht Hta Htt), Hk in Hrun.
    assert (Hc : forall w0,
               active_tasks w0 = alter (set_status Completed) task_id (active_tasks w) ->
               collect_and_consolidate_spec agent_id task_id w0 = (r, w') ->
               status tk' = Completed).
    { intros w0 Hw0 Hcol.
      destruct (collect_and_consolidate_spec_inv _ _ _ _ _ Hcol)
        as (_ & _ & _ & _ & [[Hact _] | (_ & Hact & _)]).
      - rewrite Hact, Hw0, lookup_alter_eq, Hk in Hk'. simpl in Hk'.
        injection Hk' as <-. reflexivity.
      - rewrite Hact, lookup_delete_eq in Hk'. discriminate. }
    destruct (status tk) eqn:Es.
    - eapply Hc; [|exact Hrun]. reflexivity.
    - eapply Hc; [|exact Hrun]. reflexivity.
    - injection Hrun as <- <-. congruence. }
  split; [unfold status_of; rewrite Hk'; simpl; congruence |].
  intros fs o later. split; [|split].
  - apply (handle_task_complete_of_completed _ task_id tk'); auto.
  - reflexivity.
  - unfold status_of. simpl. rewrite Hk'. simpl. congruence.
Qed.

Lemma same_files_and_io w : set_io (io w) (set_files (fun _ => files w) w) = w.
Proof. destruct w; reflexivity. Qed.

Lemma retained_task_is_never_retried_witness :
  let failing := artifact_left [IoOk; IoOk; IoOk; IoFails] in
  let w1 := (handle_task_complete (task_complete "writer" "T1") failing).2 in
  let w2 := (handle_task_complete (task_complete "writer" "T1") w1).2 in
  status_of "T1" failing = Some Delegated /\
  files failing !! spec_path "writer" "T1" = Some "Report body" /\
  status_of "T1" w1 = Some Completed /\
  files w1 !! spec_path "writer" "T1" = Some "Report body" /\
  files w1 !! active_spec_path = None /\ io w1 = [] /\
  w2 = w1.
Proof.
  intros failing w1 w2.
  assert (Hrun1 : handle_task_complete (task_complete "writer" "T1") failing
                  = ((handle_task_complete (task_complete "writer" "T1") failing).1, w1)).
  { subst w1. destruct (handle_task_complete _ failing); reflexivity. }
  destruct (retained_task_is_never_retried (task_complete "writer" "T1")
              "writer" "T1" failing _ w1
              eq_refl eq_refl eq_refl eq_refl
              ltac:(vm_compute; eauto) Hrun1 ltac:(vm_compute; eauto))
    as (Hs & Hlater).
  split; [vm_compute; reflexivity |]. split; [vm_compute; reflexivity |].
  split; [exact Hs |]. split; [vm_compute; reflexivity |].
  split; [vm_compute; reflexivity |]. split; [vm_compute; reflexivity |].
  pose proof (proj1 (Hlater (files w1) (io w1))) as Hrun.
  exact (eq_trans
           (f_equal (fun x => (handle_task_complete (task_complete "writer" "T1") x).2)
                    (eq_sym (same_files_and_io w1)))
           (eq_trans (f_equal snd Hrun) (same_files_and_io w1))).
Defined.

(** ** The two loops of [send] *)

Section BusFacts.
Context {H : Type}.
Implicit Types (c : Bus.a2a_class H) (h : H).

Lemma global_key_inj agent e1 e2 :
  Bus.global_key agent e1 = Bus.global_key agent e2 -> e1 = e2.
Proof.
  unfold Bus.global_key. induction agent as [|x agent IH]; simpl.
  - intros [= E]. exact E.
  - intros [= E]. auto.
Qed.

(** Starting or stopping an agent does not change what the second loop
    of [send] calls. *)
Lemma global_targets_set_running b self c to_agent event_type :
  Bus.global_targets (Bus.set_running b self c) to_agent event_type
  = Bus.global_targets c to_agent event_type.
Proof.
  unfold Bus.set_running. destruct (Bus.objects c !! self); reflexivity.
Qed.

Lemma global_targets_init agent c to_agent event_type :
  Bus.global_targets (Bus.init agent c).2 to_agent event_type
  = Bus.global_targets c to_agent event_type.
Proof. reflexivity. Qed.

(** A registration adds the handler at the end of what the second loop
    calls for the registering object's agent id and that event type,
    and to nothing else. *)
Lemma global_targets_on self o event_type h c to_agent e :
  Bus.objects c !! self = Some o ->
  Bus.global_targets (Bus.on self event_type h c) to_agent e
  = Bus.global_targets c to_agent e ++
    (if bool_decide (Bus.agent_id o = to_agent /\ event_type = e) then [h] else []).
Proof.
  intros Ho. unfold Bus.on. rewrite Ho. unfold Bus.global_targets. simpl.
  destruct (decide (Bus.global_key (Bus.agent_id o) event_type
                    = Bus.global_key to_agent e)) as [Ek|Ek].
  - rewrite Ek, lookup_insert_eq. simpl.
    rewrite filter_app, fmap_app. f_equal.
    rewrite filter_cons, filter_nil. simpl.
    destruct (decide (Bus.agent_id o = to_agent)) as [Ea|Ea].
    + rewrite bool_decide_eq_true_2; [reflexivity |].
      split; [exact Ea |]. rewrite Ea in Ek. apply global_key_inj in Ek. exact Ek.
    + rewrite bool_decide_eq_false_2 by tauto. reflexivity.
  - rewrite lookup_insert_ne by exact Ek.
    rewrite bool_decide_eq_false_2; [rewrite app_nil_r; reflexivity |].
    intros [<- <-]. auto.
Qed.

(** The first loop calls nothing for an agent whose object is not
    running. *)
Lemma instance_targets_not_running c to_agent event_type self o :
  Bus.instances c !! to_agent = Some self -> Bus.objects c !! self = Some o ->
  Bus.running o = false ->
  Bus.instance_targets c to_agent event_type = [].
Proof.
  intros Hi Ho Hr. unfold Bus.instance_targets. rewrite Hi. simpl.
  rewrite Ho, Hr. reflexivity.
Qed.

(** A handler registered by an object is called by every later [send]
    of that event type to the object's agent id, started or not. *)
Lemma registered_handler_is_called self o event_type h c to_agent d :
  Bus.objects c !! self = Some o -> Bus.agent_id o = to_agent ->
  d !! "type" = Some event_type ->
  exists hs,
    Bus.send_order (Bus.stop self (Bus.on self event_type h c)) to_agent (PyDict d)
    = inr hs /\ h ∈ hs.
Proof.
  intros Ho Ha Hd. unfold Bus.send_order. simpl. rewrite Hd.
  eexists. split; [reflexivity |].
  apply elem_of_app. right.
  unfold Bus.stop. rewrite global_targets_set_running.
  rewrite (global_targets_on _ _ _ _ _ _ _ Ho).
  rewrite bool_decide_eq_true_2 by auto.
  apply elem_of_app. right. apply list_elem_of_singleton. reflexivity.
Qed.
End BusFacts.

(** C2 fails on the code. A message with a valid type sent to an agent
    that was never started, or that was started and stopped, still has the
    agent's handler called, by the second loop of [send], which does not
    look at [running]. In the system: a librarian that was constructed and
    never started handles a NEW_TASK and records the task. *)
Theorem send_reaches_agent_that_is_not_running :
  Bus.send_order never_started "worker" (PyDict ping) = inr [Listener 0] /\
  Bus.send_order stopped "worker" (PyDict ping) = inr [Listener 0] /\
  status_of "T1" constructed = None /\
  let w := (send 3 librarian_id (PyDict (new_task "T1" "tidy the archive"))
              constructed).2 in
  called w = [LibNewTask] /\ status_of "T1" w = Some Delegated.
Proof. vm_compute. repeat split; reflexivity. Qed.

(** C3 fails on the code. For a started agent [send] calls the handlers
    registered for the event type in registration order and then calls
    them all again: each registration is served twice, by the first loop
    from the object's table and by the second from the class table. A
    handler registered twice is called four times. In the system: the
    started librarian handles one NEW_TASK twice. *)
Theorem send_calls_each_registration_twice :
  Bus.send_order two_handlers "worker" (PyDict ping)
  = inr [Listener 1; Listener 2; Listener 1; Listener 2] /\
  Bus.send_order same_handler_twice "worker" (PyDict ping)
  = inr [Listener 0; Listener 0; Listener 0; Listener 0] /\
  called (send 3 librarian_id (PyDict (new_task "T1" "tidy the archive")) booted).2
  = [LibNewTask; LibNewTask].
Proof. vm_compute. repeat split; reflexivity. Qed.

(** ** The life cycle of a task *)

Lemma task_evolves_refl o : task_evolves o o.
Proof. destruct o; simpl; auto. Qed.

Lemma task_evolves_trans o1 o2 o3 :
  task_evolves o1 o2 -> task_evolves o2 o3 -> task_evolves o1 o3.
Proof. destruct o1, o2, o3; simpl; try tauto; lia. Qed.

Lemma spares_app t cs1 cs2 :
  spares t (cs1 ++ cs2) <-> spares t cs1 /\ spares t cs2.
Proof.
  unfold spares. split.
  - intros H. split; intros m Hm; apply H, elem_of_app; auto.
  - intros [H1 H2] m Hm. apply elem_of_app in Hm as [Hm|Hm]; auto.
Qed.

Lemma spares_nil t : spares t [].
Proof. intros m Hm. inversion Hm. Qed.

Lemma evolves_refl cs w : evolves cs w w.
Proof. repeat split; auto using task_evolves_refl. Qed.

Lemma evolves_trans cs1 cs2 w1 w2 w3 :
  evolves cs1 w1 w2 -> evolves cs2 w2 w3 -> evolves (cs1 ++ cs2) w1 w3.
Proof.
  intros (A1 & R1 & S1 & E1) (A2 & R2 & S2 & E2).
  split; [congruence |]. split; [congruence |]. split; [auto |].
  intros t Ht. apply spares_app in Ht as [H1 H2].
  eapply task_evolves_trans; eauto.
Qed.

Lemma run_evolves_refl w : run_evolves w w.
Proof. exists []. rewrite app_nil_r. split; [reflexivity | apply evolves_refl]. Qed.

Lemma run_evolves_trans w1 w2 w3 :
  run_evolves w1 w2 -> run_evolves w2 w3 -> run_evolves w1 w3.
Proof.
  intros (cs1 & C1 & E1) (cs2 & C2 & E2). exists (cs1 ++ cs2).
  split; [rewrite C2, C1, app_assoc; reflexivity |].
  eapply evolves_trans; eauto.
Qed.

(** File-system calls leave every task as it is. *)
Lemma same_agents_run_evolves w w' : same_agents w w' -> run_evolves w w'.
Proof.
  intros (A & R & T & Q & N & C). exists []. rewrite app_nil_r.
  split; [exact C |]. split; [exact A |]. split; [exact R |]. split.
  - unfold settled. rewrite T. auto.
  - intros t _. rewrite T. apply task_evolves_refl.
Qed.

(** [_handle_task_complete] records no call and lets every task evolve:
    the task it names becomes COMPLETED, or is removed, or stays as it
    is; the others stay as they are. *)
Lemma handle_task_complete_evolves message w r w' :
  handle_task_complete message w = (r, w') ->
  calls w' = calls w /\ evolves [] w w'.
Proof.
  destruct (falsy (message !! "agent_id") || falsy (message !! "task_id")) eqn:Ef.
  { rewrite handle_task_complete_invalid by exact Ef. intros [= <- <-].
    split; [reflexivity | apply evolves_refl]. }
  apply orb_false_elim in Ef as [Ea Et].
  destruct (message !! "agent_id") as [a|] eqn:Ha; [|discriminate].
  destruct (message !! "task_id") as [t0|] eqn:Ht; [|discriminate].
  simpl in Ea, Et. apply negb_false_iff in Ea, Et.
  rewrite (handle_task_complete_valid _ a t0) by assumption.
  assert (Hcol : forall w0,
             a2a w0 = a2a w -> roster w0 = roster w -> calls w0 = calls w ->
             (active_tasks w0 = active_tasks w \/
              active_tasks w0 = alter (set_status Completed) t0 (active_tasks w)) ->
             collect_and_consolidate_spec a t0 w0 = (r, w') ->
             calls w' = calls w /\ evolves [] w w').
  { intros w0 A0 R0 C0 T0 Hc.
    destruct (collect_and_consolidate_spec_inv _ _ _ _ _ Hc)
      as (A & R & _ & C & Hact).
    split; [congruence |]. split; [congruence |]. split; [congruence |].
    assert (Hlook : forall t,
               active_tasks w' !! t = active_tasks w !! t \/
               active_tasks w' !! t = None \/
               (exists tk, active_tasks w !! t = Some tk /\
                           active_tasks w' !! t = Some (set_status Completed tk))).
    { intros t.
      destruct Hact as [[-> _] | (_ & -> & _)].
      - destruct T0 as [-> | ->]; [auto |].
        destruct (decide (t0 = t)) as [<-|Hne].
        + rewrite lookup_alter_eq. destruct (active_tasks w !! t0); simpl; eauto.
        + rewrite lookup_alter_ne by exact Hne. auto.
      - destruct (decide (t0 = t)) as [<-|Hne].
        + rewrite lookup_delete_eq. auto.
        + rewrite lookup_delete_ne by exact Hne.
          destruct T0 as [-> | ->]; [auto |].
          rewrite lookup_alter_ne by exact Hne. auto. }
    split.
    - intros Hs t tk' Hk'.
      destruct (Hlook t) as [E | [E | (tk & E1 & E2)]].
      + rewrite E in Hk'. eauto.
      + congruence.
      + rewrite E2 in Hk'. injection Hk' as <-. discriminate.
    - intros t _.
      destruct (Hlook t) as [E | [E | (tk & E1 & E2)]].
      + rewrite E. apply task_evolves_refl.
      + rewrite E. destruct (active_tasks w !! t); exact I.
      + rewrite E1, E2. simpl. destruct (status tk); simpl; lia. }
  destruct (active_tasks w !! t0) as [tk|] eqn:Hk.
  - destruct (status tk) eqn:Es.
    + apply Hcol; simpl; auto.
    + apply Hcol; simpl; auto.
    + intros [= <- <-]. split; [reflexivity | apply evolves_refl].
  - apply Hcol; simpl; auto.
Qed.
Lemma write_spec_inv task_id w r w' :
  write_spec task_id w = (r, w') -> same_agents w w'.
Proof.
  unfold write_spec. run_io.
  crunch_io (@eq_refl _ (files w)); intros [= <- <-]; repeat split.
Qed.

(** [_handle_new_task] up to its [send]: whatever the active set held
    under the task id, the record there is now a fresh one, DELEGATED to
    the agent the router chose. *)
Lemma handle_new_task_run snd message w :
  exists task_id w2,
    let payload := default "" (message !! "payload") in
    let target_agent := route_task (roster w) payload in
    handle_new_task snd message w
    = snd target_agent (PyDict (delegated_task task_id payload)) w2 /\
    (falsy (message !! "task_id") = false -> message !! "task_id" = Some task_id) /\
    active_tasks w2
    = <[task_id := Task task_id payload Delegated (Some target_agent)]> (active_tasks w) /\
    a2a w2 = a2a w /\ roster w2 = roster w /\ calls w2 = calls w /\
    files w2 = files w /\ io w2 = io w.
Proof.
  unfold handle_new_task. cbv zeta.
  destruct (falsy (message !! "task_id")) eqn:Ef.
  - eexists _, _. split.
    { rewrite bind_run. unfold generate_task_id. rewrite !bind_run.
      unfold gets at 1, modify at 1, ret at 1.
      rewrite !bind_run. unfold modify at 1, gets at 1.
      rewrite !bind_run. unfold modify at 1, modify at 1. reflexivity. }
    simpl. rewrite !alter_insert_eq. repeat split; auto. discriminate.
  - eexists _, _. split.
    { rewrite bind_run. unfold ret at 1.
      rewrite !bind_run. unfold modify at 1, gets at 1.
      rewrite !bind_run. unfold modify at 1, modify at 1. reflexivity. }
    simpl. rewrite !alter_insert_eq. repeat split; auto.
    intros _. destruct (message !! "task_id"); [reflexivity | discriminate].
Qed.

Lemma settled_insert t tk w w2 :
  settled w -> status tk ≠ Routing ->
  active_tasks w2 = <[t := tk]> (active_tasks w) -> settled w2.
Proof.
  intros Hs Hk E t' tk' Hl. rewrite E in Hl.
  destruct (decide (t = t')) as [<-|Hne].
  - rewrite lookup_insert_eq in Hl. congruence.
  - rewrite lookup_insert_ne in Hl by exact Hne. eauto.
Qed.

Section Handlers.
Variable snd : string -> pyval -> M unit.
Hypothesis snd_evolves : forall to_agent message w r w',
    snd to_agent message w = (r, w') -> run_evolves w w'.

Lemma handle_new_task_evolves message w r w' :
  handle_new_task snd message w = (r, w') ->
  exists cs, calls w' = calls w ++ cs /\ evolves ((LibNewTask, message) :: cs) w w'.
Proof.
  destruct (handle_new_task_run snd message w)
    as (t0 & w2 & Hrun & Hid & Hact & A2 & R2 & C2 & _).
  cbv zeta in *. rewrite Hrun. intros Hs.
  destruct (snd_evolves _ _ _ _ _ Hs) as (cs & C & A & R & S & E).
  exists cs. split; [congruence |].
  split; [congruence |]. split; [congruence |]. split.
  - intros Hw. apply S. eapply settled_insert; [exact Hw | | exact Hact].
    discriminate.
  - intros t Ht.
    assert (Hne : t0 ≠ t).
    { destruct (Ht message) as (t' & Hm & Htr & Hne); [left |].
      rewrite Hid in Hm; [congruence |].
      unfold falsy. rewrite Hm, Htr. reflexivity. }
    assert (Hcs : spares t cs).
    { intros m Hm. apply Ht. right. exact Hm. }
    specialize (E t Hcs). rewrite Hact, lookup_insert_ne in E by exact Hne.
    exact E.
Qed.

Lemma handle_delegated_task_evolves message w r w' :
  handle_delegated_task snd message w = (r, w') -> run_evolves w w'.
Proof.
  unfold handle_delegated_task.
  destruct (falsy (message !! "task_id")).
  { intros [= <- <-]. apply run_evolves_refl. }
  rewrite bind_run.
  destruct (write_spec (default "" (message !! "task_id")) w) as [r1 w1] eqn:Hw.
  apply write_spec_inv, same_agents_run_evolves in Hw.
  destruct r1 as [[]|e].
  - unfold emit_task_complete. intros Hs.
    eapply run_evolves_trans; [exact Hw |]. eapply snd_evolves, Hs.
  - intros [= <- <-]. exact Hw.
Qed.

(** One call of a handler by [send], recorded in [calls]. *)
Lemma logged_call_evolves h message w r w' :
  run_handler snd h message (log_call h message w) = (r, w') -> run_evolves w w'.
Proof.
  assert (Hlog : forall cs,
             calls w' = calls (log_call h message w) ++ cs ->
             evolves ((h, message) :: cs) (log_call h message w) w' ->
             run_evolves w w').
  { intros cs C E. exists ((h, message) :: cs). split.
    - rewrite C. simpl. rewrite <- app_assoc. reflexivity.
    - exact E. }
  assert (Hweak : forall cs, evolves [] (log_call h message w) w' ->
                             evolves cs (log_call h message w) w').
  { intros cs (A & R & S & E). repeat split; auto. intros t _.
    apply E, spares_nil. }
  destruct h; simpl.
  - intros Hr. destruct (handle_new_task_evolves _ _ _ _ Hr) as (cs & C & E).
    eapply Hlog; eauto.
  - intros Hr. destruct (handle_task_complete_evolves _ _ _ _ Hr) as (C & E).
    apply (Hlog []); [rewrite app_nil_r; exact C | apply Hweak, E].
  - intros Hr. destruct (handle_delegated_task_evolves _ _ _ _ Hr) as (cs & C & E).
    apply (Hlog cs); [exact C |].
    destruct E as (A & R & S & E). repeat split; auto.
    intros t Ht. apply E. intros m Hm. apply Ht. right. exact Hm.
  - intros [= <- <-]. apply (Hlog []); [rewrite app_nil_r; reflexivity |].
    apply evolves_refl.
Qed.
End Handlers.
Lemma call_all_evolves (call : handler -> gmap string string -> world -> option exn * world)
    hs message w r w' :
  (forall h w0 r0 w0', call h message w0 = (r0, w0') -> run_evolves w0 w0') ->
  Bus.call_all call hs message w = (r, w') -> run_evolves w w'.
Proof.
  intros Hcall. revert w. induction hs as [|h hs IH]; intros w; simpl.
  - intros [= <- <-]. apply run_evolves_refl.
  - destruct (call h message w) as [[e|] w1] eqn:Hc.
    + intros [= <- <-]. eapply Hcall, Hc.
    + intros Hr. eapply run_evolves_trans; [eapply Hcall, Hc | eapply IH, Hr].
Qed.

(** Whatever a [send] sets off, at any depth, tasks only evolve. *)
Lemma send_evolves fuel : forall to_agent message w r w',
  send fuel to_agent message w = (r, w') -> run_evolves w w'.
Proof.
  assert (Hstep : forall (call : handler -> gmap string string -> world -> option exn * world),
             (forall h d w0 r0 w0', call h d w0 = (r0, w0') -> run_evolves w0 w0') ->
             forall to_agent message w r w',
               of_opt (Bus.send a2a call to_agent message w) = (r, w') ->
               run_evolves w w').
  { intros call Hcall to_agent message w r w'. unfold Bus.send.
    destruct (check_message message) as [e|[d ev]].
    { intros [= <- <-]. apply run_evolves_refl. }
    destruct (Bus.call_all call (Bus.instance_targets (a2a w) to_agent ev) d w)
      as [[e|] w1] eqn:H1.
    - intros [= <- <-]. eapply call_all_evolves; [|exact H1]. intros; eapply Hcall; eauto.
    - destruct (Bus.call_all call (Bus.global_targets (a2a w1) to_agent ev) d w1)
        as [r2 w2] eqn:H2.
      intros Hr. assert (w2 = w') as <- by (destruct r2; injection Hr; auto).
      eapply run_evolves_trans.
      + eapply call_all_evolves; [|exact H1]. intros; eapply Hcall; eauto.
      + eapply call_all_evolves; [|exact H2]. intros; eapply Hcall; eauto. }
  induction fuel as [|fuel IH]; intros to_agent message w r w'; rewrite send_unfold.
  - apply Hstep. intros h d w0 r0 w0' [= <- <-]. apply run_evolves_refl.
  - apply Hstep. intros h d w0 r0 w0' Hc.
    destruct (run_handler (send fuel) h d (log_call h d w0)) as [r1 w1] eqn:Hr.
    assert (w1 = w0') as -> by (destruct r1; injection Hc; auto).
    eapply logged_call_evolves; [exact IH | exact Hr].
Qed.










Section OneObjectFacts.
Context {H : Type}.
Implicit Types (c : Bus.a2a_class H) (h : H).

Lemma mirrored_empty : mirrored (@Bus.empty_class H).
Proof.
  split; [|split].
  - intros agent self Hl. simpl in Hl. rewrite lookup_empty in Hl. discriminate.
  - intros agent ev _. reflexivity.
  - intros self o Hl. simpl in Hl. rewrite lookup_nil in Hl. discriminate.
Qed.

Lemma mirrored_init agent c :
  mirrored c -> Bus.instances c !! agent = None -> mirrored (Bus.init agent c).2.
Proof.
  intros (M1 & M2 & M3) Hnew. split; [|split]; simpl.
  - intros a self Hl. destruct (decide (agent = a)) as [<-|Hne].
    + rewrite lookup_insert_eq in Hl. injection Hl as <-.
      exists (Bus.Instance agent ∅ false). split; [|reflexivity].
      rewrite lookup_app_r by lia. rewrite Nat.sub_diag. reflexivity.
    + rewrite lookup_insert_ne in Hl by exact Hne.
      destruct (M1 _ _ Hl) as (o & Ho & Ha). exists o. split; [|exact Ha].
      apply lookup_app_l_Some. exact Ho.
  - intros a ev Hl. destruct (decide (agent = a)) as [<-|Hne].
    + rewrite lookup_insert_eq in Hl. discriminate.
    + rewrite lookup_insert_ne in Hl by exact Hne. apply (M2 a ev Hl).
  - intros self o Hl. apply lookup_app_Some in Hl as [Hl | [Hge Hl]].
    + destruct (M3 _ _ Hl) as (Hi & Hg). split; [|exact Hg].
      rewrite lookup_insert_ne; [exact Hi |]. intros ->. congruence.
    + destruct (self - length (Bus.objects c)) as [|n] eqn:En; simpl in Hl;
        [|rewrite lookup_nil in Hl; discriminate].
      injection Hl as <-. simpl. assert (self = length (Bus.objects c)) as -> by lia.
      split; [apply lookup_insert_eq |].
      intros ev. rewrite lookup_empty. apply (M2 agent ev Hnew).
Qed.

Lemma mirrored_set_running b self c : mirrored c -> mirrored (Bus.set_running b self c).
Proof.
  intros (M1 & M2 & M3).
  unfold mirrored. setoid_rewrite global_targets_set_running.
  unfold Bus.set_running. destruct (Bus.objects c !! self) as [o|] eqn:Ho;
    [|split; [|split]; assumption].
  simpl. split; [|split].
  - intros a s Hl. destruct (M1 _ _ Hl) as (o' & Ho' & Ha).
    destruct (decide (self = s)) as [<-|Hne].
    + eexists. split; [apply list_lookup_insert_eq; eapply lookup_lt_Some, Ho |].
      simpl. congruence.
    + exists o'. split; [|exact Ha]. rewrite list_lookup_insert_ne by exact Hne. exact Ho'.
  - exact M2.
  - intros s o' Hl. destruct (decide (self = s)) as [<-|Hne].
    + rewrite list_lookup_insert_eq in Hl by (eapply lookup_lt_Some, Ho).
      injection Hl as <-. simpl. apply (M3 _ _ Ho).
    + rewrite list_lookup_insert_ne in Hl by exact Hne. apply (M3 _ _ Hl).
Qed.

Lemma mirrored_on self event_type h c : mirrored c -> mirrored (Bus.on self event_type h c).
Proof.
  intros (M1 & M2 & M3).
  destruct (Bus.objects c !! self) as [o|] eqn:Ho.
  2:{ unfold Bus.on. rewrite Ho. split; [|split]; assumption. }
  pose proof (global_targets_on self o event_type h c) as Hg.
  pose proof (lookup_lt_Some _ _ _ Ho) as Hlt.
  destruct (M3 _ _ Ho) as (Hio & Hgo).
  assert (Hobj : Bus.objects (Bus.on self event_type h c)
                 = <[self := Bus.Instance (Bus.agent_id o)
                               (<[event_type :=
                                    default [] (Bus.handlers o !! event_type) ++ [h]]>
                                  (Bus.handlers o))
                               (Bus.running o)]> (Bus.objects c)).
  { unfold Bus.on. rewrite Ho. reflexivity. }
  assert (Hinst : Bus.instances (Bus.on self event_type h c) = Bus.instances c).
  { unfold Bus.on. rewrite Ho. reflexivity. }
  split; [|split].
  - intros a s Hl. rewrite Hinst in Hl. destruct (M1 _ _ Hl) as (o' & Ho' & Ha).
    rewrite Hobj. destruct (decide (self = s)) as [<-|Hne].
    + eexists. split; [apply list_lookup_insert_eq, Hlt |]. simpl. congruence.
    + exists o'. split; [|exact Ha]. rewrite list_lookup_insert_ne by exact Hne. exact Ho'.
  - intros a ev Hl. rewrite Hinst in Hl. rewrite Hg by exact Ho.
    rewrite (M2 a ev Hl). rewrite bool_decide_eq_false_2; [reflexivity |].
    intros [<- _]. congruence.
  - intros s o' Hl. rewrite Hobj in Hl. rewrite Hinst.
    destruct (decide (self = s)) as [<-|Hne].
    + rewrite list_lookup_insert_eq in Hl by exact Hlt. injection Hl as <-. simpl.
      split; [exact Hio |]. intros ev. rewrite Hg by exact Ho. rewrite Hgo.
      destruct (decide (event_type = ev)) as [<-|Hev].
      * rewrite bool_decide_eq_true_2 by auto. rewrite lookup_insert_eq. reflexivity.
      * rewrite bool_decide_eq_false_2 by tauto.
        rewrite lookup_insert_ne by exact Hev. apply app_nil_r.
    + rewrite list_lookup_insert_ne in Hl by exact Hne.
      destruct (M3 _ _ Hl) as (Hi' & Hg'). split; [exact Hi' |].
      intros ev. rewrite Hg by exact Ho. rewrite Hg'.
      rewrite bool_decide_eq_false_2; [apply app_nil_r |].
      intros [Ea _]. rewrite <- Ea in Hi'. congruence.
Qed.

Lemma built_mirrored c : built c -> mirrored c.
Proof.
  induction 1; auto using mirrored_empty, mirrored_init, mirrored_on,
    mirrored_set_running.
Qed.

(** X3. On a bus where each agent id has one object, a message to a started
    agent has every handler registered for its type called twice: the
    whole list in registration order, and then the whole list again. To
    an agent that is not running, the list is called once. *)
Lemma send_order_of_built c to_agent self o d event_type :
  built c ->
  Bus.instances c !! to_agent = Some self -> Bus.objects c !! self = Some o ->
  d !! "type" = Some event_type ->
  let hs := default [] (Bus.handlers o !! event_type) in
  Bus.send_order c to_agent (PyDict d)
  = inr (if Bus.running o then hs ++ hs else hs).
Proof.
  intros Hb Hi Ho Hd hs. destruct (built_mirrored _ Hb) as (M1 & _ & M3).
  destruct (M1 _ _ Hi) as (o' & Ho' & Ha).
  assert (o' = o) as -> by congruence.
  destruct (M3 _ _ Ho) as (_ & Hg). rewrite Ha in Hg.
  unfold Bus.send_order. simpl. rewrite Hd. f_equal.
  unfold Bus.instance_targets. rewrite Hi. simpl. rewrite Ho, Hg.
  destruct (Bus.running o); reflexivity.
Qed.
End OneObjectFacts.

(** ** [send] and the order of calls *)

Lemma call_all_app {H W} (call : H -> gmap string string -> W -> option exn * W)
    hs1 hs2 d w :
  Bus.call_all call (hs1 ++ hs2) d w
  = match Bus.call_all call hs1 d w with
    | (None, w1) => Bus.call_all call hs2 d w1
    | (Some e, w1) => (Some e, w1)
    end.
Proof.
  revert w. induction hs1 as [|h hs1 IH]; intros w; simpl; [reflexivity |].
  destruct (call h d w) as [[e|] w1]; [reflexivity | apply IH].
Qed.

Lemma call_all_class {H W} (get_class : W -> Bus.a2a_class H)
    (call : H -> gmap string string -> W -> option exn * W) hs d w :
  (forall h w0, get_class (call h d w0).2 = get_class w0) ->
  get_class (Bus.call_all call hs d w).2 = get_class w.
Proof.
  intros Hc. revert w. induction hs as [|h hs IH]; intros w; simpl; [reflexivity |].
  specialize (Hc h w). destruct (call h d w) as [[e|] w1]; simpl in *; [exact Hc |].
  rewrite IH. exact Hc.
Qed.

(** When no handler changes the class tables, [send] calls the handlers of
    [send_order], in that order, until one raises. *)
Lemma send_follows_send_order {H W} (get_class : W -> Bus.a2a_class H)
    (call : H -> gmap string string -> W -> option exn * W) to_agent d hs w :
  (forall h w0, get_class (call h d w0).2 = get_class w0) ->
  Bus.send_order (get_class w) to_agent (PyDict d) = inr hs ->
  Bus.send get_class call to_agent (PyDict d) w = Bus.call_all call hs d w.
Proof.
  intros Hc. unfold Bus.send_order, Bus.send. simpl.
  destruct (d !! "type") as [ev|]; [|discriminate]. intros [= <-].
  rewrite call_all_app.
  pose proof (call_all_class get_class call
                (Bus.instance_targets (get_class w) to_agent ev) d w Hc) as Hk.
  destruct (Bus.call_all call (Bus.instance_targets (get_class w) to_agent ev) d w)
    as [[e|] w1]; [reflexivity |].
  simpl in Hk. rewrite Hk. reflexivity.
Qed.

(** In the running system no handler changes the class tables, so [send]
    follows [send_order]. *)
Lemma system_send_follows_send_order fuel to_agent d hs w :
  Bus.send_order (a2a w) to_agent (PyDict d) = inr hs ->
  send (S fuel) to_agent (PyDict d) w
  = of_opt (Bus.call_all
              (fun h d w' => to_opt (run_handler (send fuel) h d (log_call h d w')))
              hs d w).
Proof.
  intros Ho. rewrite send_unfold. f_equal.
  apply send_follows_send_order; [|exact Ho].
  intros h w0.
  destruct (run_handler (send fuel) h d (log_call h d w0)) as [r w1] eqn:Hr.
  pose proof (logged_call_evolves (send fuel) (send_evolves fuel) _ _ _ _ _ Hr)
    as (cs & _ & A & _).
  destruct r; exact A.
Qed.

(** X23. An exception of the re-read in [_verify_consolidation] is not handled:
    it leaves the pipeline, and neither the delete nor the cleanup runs. *)
Lemma verification_read_error_escapes agent_id task_id w spec_content w1 w2 e w3 :
  read_file (spec_path agent_id task_id) w = (Ok spec_content, w1) ->
  truthy (strip spec_content) = true ->
  append_to_active_spec spec_content agent_id task_id w1 = (Ok tt, w2) ->
  verify_consolidation spec_content w2 = (Raised e, w3) ->
  collect_and_consolidate_spec agent_id task_id w = (Raised e, w3) /\
  active_tasks w3 = active_tasks w /\ completion_queue w3 = completion_queue w.
Proof.
  intros Hread Hne Happ Hver.
  destruct (read_file_inv _ _ _ _ Hread) as (S1 & _ & Hc).
  specialize (Hc _ eq_refl).
  destruct (append_to_active_spec_inv _ _ _ _ _ _ Happ) as (S2 & _).
  destruct (verify_consolidation_inv _ _ _ _ Hver) as (S3 & _ & _).
  split.
  - unfold collect_and_consolidate_spec. cbv zeta.
    rewrite bind_run. unfold path_exists at 1, gets at 1.
    rewrite Hc, is_Some_Some_true. cbn [negb].
    rewrite bind_run. unfold try_except at 1. rewrite bind_run, Hread.
    unfold ret at 1. rewrite Hne. cbn [negb].
    rewrite bind_run. unfold try_except at 1. rewrite bind_run, Happ.
    unfold ret at 1. cbn [negb].
    rewrite bind_run, Hver. reflexivity.
  - destruct S1 as (_&_&A1&Q1&_), S2 as (_&_&A2&Q2&_), S3 as (_&_&A3&Q3&_).
    split; congruence.
Qed.

Lemma append_cons x (a b : string) : String x a +:+ b = String x (a +:+ b).
Proof. reflexivity. Qed.

Lemma append_nil (b : string) : EmptyString +:+ b = b.
Proof. reflexivity. Qed.

Lemma app_assoc_s (a b c : string) : (a +:+ b) +:+ c = a +:+ (b +:+ c).
Proof.
  induction a as [|x a IH]; [reflexivity |].
  rewrite !append_cons, IH. reflexivity.
Qed.






Section MoreBusFacts.
Context {H : Type}.
Implicit Types (c : Bus.a2a_class H) (h : H).

Lemma instance_eta (o : Bus.instance H) :
  Bus.Instance (Bus.agent_id o) (Bus.handlers o) (Bus.running o) = o.
Proof. destruct o; reflexivity. Qed.

(** X1. [start()] on an object that is running and [stop()] on one that is
    not change nothing in the class tables or the objects; so starting
    twice is starting once, stopping twice is stopping once, and a start
    that is undone by a stop leaves an object that was not running as it
    was. *)
Theorem start_and_stop_without_effect self o c :
  Bus.objects c !! self = Some o ->
  (Bus.running o = true -> Bus.start self c = c) /\
  (Bus.running o = false -> Bus.stop self c = c) /\
  Bus.start self (Bus.start self c) = Bus.start self c /\
  Bus.stop self (Bus.stop self c) = Bus.stop self c /\
  (Bus.running o = false -> Bus.stop self (Bus.start self c) = c).
Proof.
  intros Ho.
  assert (Hsame : forall b, Bus.running o = b -> Bus.set_running b self c = c).
  { intros b Hb. unfold Bus.set_running. rewrite Ho, <- Hb, instance_eta.
    rewrite list_insert_id by exact Ho. destruct c; reflexivity. }
  assert (Htwice : forall b b',
             Bus.set_running b self (Bus.set_running b' self c)
             = Bus.set_running b self c).
  { intros b b'. unfold Bus.set_running. rewrite Ho. simpl.
    rewrite list_lookup_insert_eq by (eapply lookup_lt_Some, Ho). simpl.
    rewrite list_insert_insert_eq. reflexivity. }
  split; [apply Hsame |]. split; [apply Hsame |].
  split; [apply Htwice |]. split; [apply Htwice |].
  intros Hr. unfold Bus.stop, Bus.start. rewrite Htwice. apply Hsame, Hr.
Qed.
End MoreBusFacts.

Lemma start_and_stop_without_effect_witness :
  Bus.objects never_started !! 0 = Some (Bus.Instance "worker" {[ "PING" := [Listener 0] ]} false) /\
  Bus.stop 0 never_started = never_started /\
  Bus.stop 0 (Bus.start 0 never_started) = never_started.
Proof.
  split; [reflexivity |].
  destruct (start_and_stop_without_effect 0
              (Bus.Instance "worker" {[ "PING" := [Listener 0] ]} false) never_started)
    as (_ & Hstop & _ & _ & Hboth); [reflexivity |].
  split; [apply Hstop | apply Hboth]; reflexivity.
Defined.
Lemma built_two_handlers : built two_handlers.
Proof.
  change two_handlers with
    (Bus.set_running true 0
       (Bus.on 0 "PING" (Listener 2)
          (Bus.on 0 "PING" (Listener 1) (Bus.init "worker" Bus.empty_class).2))).
  apply built_set_running, built_on, built_on, built_init;
    [apply built_empty | vm_compute; reflexivity].
Qed.

Lemma built_booted : built (a2a booted).
Proof.
  replace (a2a booted) with
    (Bus.set_running true 1
       (Bus.set_running true 0
          (Bus.on 1 "TASK_COMPLETE" LibTaskComplete
             (Bus.on 1 "NEW_TASK" LibNewTask
                (Bus.init "librarian"
                   (Bus.init "manager" (@Bus.empty_class handler)).2).2))))
    by (vm_compute; reflexivity).
  apply built_set_running, built_set_running, built_on, built_on, built_init;
    [apply built_init; [apply built_empty | vm_compute; reflexivity]
    | vm_compute; reflexivity].
Qed.

Section BusOrder.
Context {H : Type}.
Implicit Types (c : Bus.a2a_class H) (h : H).

(** X2. A message with a type, sent to an agent id under which no [A2A]
    object was ever constructed, has no handler to call: [send] returns
    normally and the state is as it was. *)
Theorem send_to_unknown_agent_is_dropped {W} (get_class : W -> Bus.a2a_class H)
    (call : H -> gmap string string -> W -> option exn * W)
    (to_agent : string) (d : gmap string string) (w : W) :
  built (get_class w) ->
  Bus.instances (get_class w) !! to_agent = None ->
  is_Some (d !! "type") ->
  Bus.send_order (get_class w) to_agent (PyDict d) = inr [] /\
  Bus.send get_class call to_agent (PyDict d) w = (None, w).
Proof.
  intros Hb Hi [ev Hd]. destruct (built_mirrored _ Hb) as (_ & M2 & _).
  assert (Ho : Bus.send_order (get_class w) to_agent (PyDict d) = inr []).
  { unfold Bus.send_order. simpl. rewrite Hd. unfold Bus.instance_targets.
    rewrite Hi. simpl. rewrite (M2 _ ev Hi). reflexivity. }
  split; [exact Ho |].
  unfold Bus.send. simpl. rewrite Hd. unfold Bus.instance_targets.
  rewrite Hi. simpl. rewrite (M2 _ ev Hi). reflexivity.
Qed.

(** X4. Constructing a second [A2A] under an agent id that is in use
    replaces the object that [_instances] holds by one that is not running
    and has no handlers, so the first loop of [send] calls nothing; the
    handlers registered through the earlier object are still called, once,
    by the second loop. *)
Theorem send_after_second_construction c agent d event_type :
  d !! "type" = Some event_type ->
  Bus.instance_targets (Bus.init agent c).2 agent event_type = [] /\
  Bus.send_order (Bus.init agent c).2 agent (PyDict d)
  = inr (Bus.global_targets c agent event_type).
Proof.
  intros Hd.
  assert (Hi : Bus.instance_targets (Bus.init agent c).2 agent event_type = []).
  { unfold Bus.instance_targets. simpl. rewrite lookup_insert_eq. simpl.
    rewrite lookup_app_r by lia. rewrite Nat.sub_diag. reflexivity. }
  split; [exact Hi |].
  unfold Bus.send_order, check_message. rewrite Hd, Hi. reflexivity.
Qed.

(** X6. A registration for one agent and event type changes nothing for
    any other agent or any other event type, although the key of the class
    table, [agent:event], is not unique (agent ["a"] with event ["b:c"]
    and agent ["a:b"] with event ["c"] share it): the handlers [send]
    calls for the other pair are the same as before. *)
Theorem registration_is_local self o event_type h c to_agent d e :
  built c -> Bus.objects c !! self = Some o -> d !! "type" = Some e ->
  Bus.agent_id o ≠ to_agent \/ event_type ≠ e ->
  Bus.send_order (Bus.on self event_type h c) to_agent (PyDict d)
  = Bus.send_order c to_agent (PyDict d).
Proof.
  intros Hb Ho Hd Hne. destruct (built_mirrored _ Hb) as (M1 & _ & _).
  unfold Bus.send_order. simpl. rewrite Hd. f_equal. f_equal.
  - unfold Bus.instance_targets, Bus.on. rewrite Ho. simpl.
    destruct (Bus.instances c !! to_agent) as [r|] eqn:Hi; [|reflexivity]. simpl.
    destruct (decide (self = r)) as [<-|Hr].
    + rewrite list_lookup_insert_eq by (eapply lookup_lt_Some, Ho). rewrite Ho. simpl.
      destruct (M1 _ _ Hi) as (o' & Ho' & Ha).
      assert (o' = o) as -> by congruence.
      destruct Hne as [Hne|Hne]; [congruence |].
      rewrite lookup_insert_ne by exact Hne. reflexivity.
    + rewrite list_lookup_insert_ne by exact Hr. reflexivity.
  - rewrite (global_targets_on _ _ _ _ _ _ _ Ho).
    rewrite bool_decide_eq_false_2 by tauto. apply app_nil_r.
Qed.

(** X5. [send] stops at the first handler that raises: the exception
    reaches the sender with the state that handler left, and the handlers
    that come after it in the order of calls are not called. *)
Theorem send_stops_at_raising_handler {W} (get_class : W -> Bus.a2a_class H)
    (call : H -> gmap string string -> W -> option exn * W)
    to_agent d hs1 h hs2 w w1 e w2 :
  (forall h0 w0, get_class (call h0 d w0).2 = get_class w0) ->
  Bus.send_order (get_class w) to_agent (PyDict d) = inr (hs1 ++ h :: hs2) ->
  Bus.call_all call hs1 d w = (None, w1) ->
  call h d w1 = (Some e, w2) ->
  Bus.send get_class call to_agent (PyDict d) w = (Some e, w2).
Proof.
  intros Hc Ho H1 H2.
  rewrite (send_follows_send_order _ _ _ _ _ _ Hc Ho).
  rewrite call_all_app, H1. simpl. rewrite H2. reflexivity.
Qed.
End BusOrder.
Lemma call_handler_keeps_class fuel h d w : a2a (call_handler fuel h d w).2 = a2a w.
Proof.
  unfold call_handler.
  destruct (run_handler (send fuel) h d (log_call h d w)) as [r w1] eqn:Hr.
  pose proof (logged_call_evolves (send fuel) (send_evolves fuel) _ _ _ _ _ Hr)
    as (cs & _ & A & _).
  destruct r; exact A.
Qed.

Lemma send_as_bus_send fuel to_agent message w :
  send (S fuel) to_agent message w
  = of_opt (Bus.send a2a (call_handler fuel) to_agent message w).
Proof. rewrite send_unfold. reflexivity. Qed.

Lemma send_to_unknown_agent_is_dropped_witness :
  Bus.instances (a2a booted) !! "nobody" = None /\
  send 3 "nobody" (PyDict ping) booted = (Ok tt, booted).
Proof.
  split; [reflexivity |].
  rewrite send_as_bus_send.
  destruct (send_to_unknown_agent_is_dropped a2a (call_handler 2) "nobody" ping booted
              built_booted eq_refl (ex_intro _ "PING" eq_refl)) as (_ & ->).
  reflexivity.
Defined.

Lemma send_order_of_built_witness :
  Bus.send_order two_handlers "worker" (PyDict ping)
  = inr ([Listener 1; Listener 2] ++ [Listener 1; Listener 2]).
Proof.
  exact (send_order_of_built two_handlers "worker" 0
           (Bus.Instance "worker" {[ "PING" := [Listener 1; Listener 2] ]} true)
           ping "PING" built_two_handlers eq_refl eq_refl eq_refl).
Defined.

Lemma send_after_second_construction_witness :
  Bus.send_order two_handlers "worker" (PyDict ping)
  = inr [Listener 1; Listener 2; Listener 1; Listener 2] /\
  Bus.send_order (Bus.init "worker" two_handlers).2 "worker" (PyDict ping)
  = inr [Listener 1; Listener 2].
Proof.
  split; [reflexivity |].
  exact (proj2 (send_after_second_construction two_handlers "worker" ping "PING" eq_refl)).
Defined.

Lemma registration_is_local_witness :
  Bus.send_order (Bus.on 0 "PONG" (Listener 3) two_handlers) "worker" (PyDict ping)
  = Bus.send_order two_handlers "worker" (PyDict ping).
Proof.
  apply (registration_is_local 0
           (Bus.Instance "worker" {[ "PING" := [Listener 1; Listener 2] ]} true)
           "PONG" (Listener 3) two_handlers "worker" ping "PING" built_two_handlers);
    [reflexivity | reflexivity | right; discriminate].
Defined.

Lemma send_stops_at_raising_handler_witness :
  let message := delegated_task "T1" "check the build" in
  Bus.send_order (a2a probe_then_listener) probe_id (PyDict message)
  = inr [ProbeDelegatedTask; Listener 7] /\
  exists w',
    send 2 probe_id (PyDict message) probe_then_listener = (Raised (OSError logs_path), w') /\
    called w' = [ProbeDelegatedTask].
Proof.
  intros message. split; [reflexivity |].
  eexists. rewrite send_as_bus_send.
  rewrite (send_stops_at_raising_handler a2a (call_handler 1) probe_id message
             [] ProbeDelegatedTask [Listener 7] probe_then_listener probe_then_listener
             (OSError logs_path)
             (call_handler 1 ProbeDelegatedTask message probe_then_listener).2
             (fun h0 w0 => call_handler_keeps_class 1 h0 message w0) eq_refl eq_refl eq_refl).
  split; reflexivity.
Defined.

(** ** File tools *)



Lemma honest_world w o :
  io w = o ->
  w = World (a2a w) (roster w) (active_tasks w) (completion_queue w) (task_counter w)
            (files w) o (calls w).
Proof. intros <-. destruct w; reflexivity. Qed.



(** X9. On a file system that behaves, [delete_file] of a file that exists
    removes it and nothing else; after that the file is gone for
    [read_file] and for a second [delete_file], which both raise
    [FileNotFoundError]. *)
Theorem delete_file_removes_the_file path w :
  io w = [] -> is_Some (files w !! path) ->
  exists w',
    delete_file path w = (Ok tt, w') /\
    files w' = delete path (files w) /\
    read_file path w' = (Raised (FileNotFoundError path), w') /\
    delete_file path w' = (Raised (FileNotFoundError path), w').
Proof.
  intros Hio [c Hc]. rewrite (honest_world w [] Hio).
  eexists. split; [|split; [|split]].
  - unfold delete_file, path_exists, unlink, next_io, gets, modify, bind, ret. simpl.
    rewrite Hc, is_Some_Some_true. simpl. rewrite Hc. reflexivity.
  - reflexivity.
  - unfold read_file, path_exists, gets, bind, raise. simpl.
    rewrite lookup_delete_eq, is_Some_None_false. reflexivity.
  - unfold delete_file, path_exists, gets, bind, raise. simpl.
    rewrite lookup_delete_eq, is_Some_None_false. reflexivity.
Qed.

Lemma delete_file_removes_the_file_witness :
  exists w',
    delete_file roster_path (new_process {[ roster_path := demo_roster ]} [])
    = (Ok tt, w') /\
    files w' = ∅.
Proof.
  destruct (delete_file_removes_the_file roster_path
              (new_process {[ roster_path := demo_roster ]} []))
    as (w' & Hd & Hf & _); [reflexivity | vm_compute; eauto |].
  exists w'. split; [exact Hd |]. rewrite Hf. vm_compute. reflexivity.
Defined.

(** ** Task ids *)

Lemma generate_task_id_run w :
  generate_task_id w
  = (Ok (task_id_text (S (task_counter w))), set_task_counter (S (task_counter w)) w).
Proof. reflexivity. Qed.

Lemma uint_of_zero_padded s :
  Nat.of_uint <$> NilEmpty.uint_of_string (String "0" s)
  = Nat.of_uint <$> NilEmpty.uint_of_string s.
Proof.
  simpl. destruct (NilEmpty.uint_of_string s) as [d|]; reflexivity.
Qed.

Lemma decimal_round_trip n :
  Nat.of_uint <$> NilEmpty.uint_of_string (decimal n) = Some n.
Proof.
  unfold decimal. rewrite NilEmpty.usu. simpl. f_equal.
  apply DecimalNat.Unsigned.of_to.
Qed.

Lemma pad3_round_trip n :
  Nat.of_uint <$> NilEmpty.uint_of_string (pad3 (decimal n)) = Some n.
Proof.
  unfold pad3.
  destruct (String.length (decimal n)) as [|[|[|k]]];
    change ("000" +:+ decimal n) with (String "0" (String "0" (String "0" (decimal n))));
    change ("00" +:+ decimal n) with (String "0" (String "0" (decimal n)));
    change ("0" +:+ decimal n) with (String "0" (decimal n));
    rewrite ?uint_of_zero_padded; apply decimal_round_trip.
Qed.

Lemma string_length_app (s1 s2 : string) :
  String.length (s1 +:+ s2) = String.length s1 + String.length s2.
Proof. induction s1 as [|c s1 IH]; [reflexivity |]. simpl. rewrite IH. reflexivity. Qed.

(** X10. [generate_task_id] advances the counter by one and returns
    ["TASK-"] followed by the new value in decimal, padded with zeros to
    three digits at least. The value can be read back from the id, so ids
    made from different counter values differ: two calls never return the
    same id. *)
Theorem generate_task_id_is_fresh w :
  let n := S (task_counter w) in
  generate_task_id w = (Ok (task_id_text n), set_task_counter n w) /\
  task_number (task_id_text n) = Some n /\
  8 <= String.length (task_id_text n) /\
  (forall m, task_id_text m = task_id_text n -> m = n) /\
  (forall id1 w1 id2 w2,
      generate_task_id w = (Ok id1, w1) -> generate_task_id w1 = (Ok id2, w2) ->
      id1 ≠ id2).
Proof.
  intros n.
  assert (Hback : forall k, task_number (task_id_text k) = Some k).
  { intros k. unfold task_number, task_id_text.
    change (startswith ("TASK-" +:+ pad3 (decimal k)) "TASK-") with true.
    change (drop_chars 5 ("TASK-" +:+ pad3 (decimal k))) with (pad3 (decimal k)).
    apply pad3_round_trip. }
  assert (Hinj : forall m k, task_id_text m = task_id_text k -> m = k).
  { intros m k E. apply (f_equal task_number) in E. rewrite !Hback in E. congruence. }
  split; [reflexivity |]. split; [apply Hback |]. split; [|split].
  - unfold task_id_text. rewrite string_length_app. simpl.
    unfold pad3. destruct (String.length (decimal n)) as [|[|[|k]]] eqn:E;
      rewrite ?string_length_app, ?E; simpl; lia.
  - intros m. apply Hinj.
  - intros id1 w1 id2 w2. rewrite !generate_task_id_run.
    intros [= <- <-] [= <- _] E. simpl in E. apply Hinj in E. lia.
Qed.

(** ** More on the roster parser *)

Lemma dict_get_set_eq {V} k (v : V) d : dict_get k (dict_set k v d) = Some v.
Proof.
  induction d as [|[k' v'] d IH]; simpl.
  - rewrite String.eqb_refl. reflexivity.
  - destruct (String.eqb k k') eqn:E; simpl; rewrite ?String.eqb_refl, ?E; auto.
Qed.

Lemma dict_get_set_ne {V} k k0 (v : V) d :
  k0 ≠ k -> dict_get k0 (dict_set k v d) = dict_get k0 d.
Proof.
  intros Hne. induction d as [|[k' v'] d IH]; simpl.
  - apply String.eqb_neq in Hne. rewrite Hne. reflexivity.
  - destruct (String.eqb k k') eqn:E; simpl.
    + apply String.eqb_eq in E. subst k'.
      apply String.eqb_neq in Hne. rewrite Hne. reflexivity.
    + rewrite IH. reflexivity.
Qed.

Lemma dict_set_keys {V} k (v : V) d :
  (dict_set k v d).*1 = if bool_decide (k ∈ d.*1) then d.*1 else d.*1 ++ [k].
Proof.
  induction d as [|[k' v'] d IH]; [reflexivity |].
  cbn [dict_set]. destruct (String.eqb k k') eqn:E; rewrite !fmap_cons; cbn [fst].
  - apply String.eqb_eq in E. subst k'.
    rewrite bool_decide_eq_true_2 by left. reflexivity.
  - apply String.eqb_neq in E. rewrite IH.
    destruct (bool_decide (k ∈ d.*1)) eqn:Eb.
    + apply bool_decide_eq_true_1 in Eb.
      rewrite bool_decide_eq_true_2 by (right; exact Eb). reflexivity.
    + apply bool_decide_eq_false_1 in Eb.
      rewrite bool_decide_eq_false_2; [reflexivity |].
      intros H. apply elem_of_cons in H as [H|H]; congruence.
Qed.

Lemma dict_update_keys {V} k (f : V -> V) d : (dict_update k f d).*1 = d.*1.
Proof.
  induction d as [|[k' v'] d IH]; [reflexivity |].
  cbn [dict_update]. destruct (String.eqb k k'); rewrite !fmap_cons; cbn [fst];
    congruence.
Qed.

Lemma dict_get_update {V} k k0 (f : V -> V) d :
  NoDup d.*1 ->
  dict_get k0 (dict_update k f d)
  = if String.eqb k0 k then f <$> dict_get k0 d else dict_get k0 d.
Proof.
  intros Hnd. induction d as [|[k' v'] d IH]; simpl.
  - destruct (String.eqb k0 k); reflexivity.
  - inversion Hnd as [|? ? Hnotin Hnd']; subst.
    destruct (String.eqb k k') eqn:E; simpl.
    + apply String.eqb_eq in E. subst k'.
      destruct (String.eqb k0 k) eqn:E0; reflexivity.
    + rewrite (IH Hnd'). destruct (String.eqb k0 k') eqn:E1; [|reflexivity].
      apply String.eqb_eq in E1. subst k'.
      rewrite String.eqb_sym, E. reflexivity.
Qed.


Lemma keys_ok_dict_set name r :
  keys_ok r -> name ≠ EmptyString -> strip name = name ->
  keys_ok (dict_set name (AgentInfo name [] []) r).
Proof.
  intros [Hnd Hall] Hne Hs. split.
  - unfold roster_keys in *. rewrite dict_set_keys.
    destruct (bool_decide (name ∈ r.*1)) eqn:E; [exact Hnd |].
    apply bool_decide_eq_false_1 in E.
    apply NoDup_app. split; [exact Hnd |]. split.
    + intros x Hx Hx'. apply list_elem_of_singleton in Hx'. congruence.
    + apply NoDup_singleton.
  - clear Hnd. induction Hall as [|[k v] r Hkv Hall IH]; simpl.
    + constructor; [simpl; auto | constructor].
    + destruct (String.eqb name k); constructor; simpl; auto.
Qed.

Lemma keys_ok_dict_update k sec item r :
  keys_ok r -> keys_ok (dict_update k (append_item sec item) r).
Proof.
  intros [Hnd Hall]. split.
  - unfold roster_keys in *. rewrite dict_update_keys. exact Hnd.
  - clear Hnd. induction Hall as [|[k' v] r Hkv Hall IH]; simpl; [constructor |].
    destruct (String.eqb k k'); constructor; simpl; auto.
    destruct sec; simpl in *; exact Hkv.
Qed.

Lemma roster_line_keys_ok st line : keys_ok (agents st) -> keys_ok (agents (roster_line st line)).
Proof.
  intros Hr. unfold roster_line.
  destruct (startswith (strip line) "##" && negb (startswith (strip line) "###")).
  - cbn [agents]. destruct (truthy (strip (drop_chars 2 (strip line)))) eqn:E; [|exact Hr].
    apply keys_ok_dict_set; [exact Hr | apply truthy_true, E | apply strip_idem].
  - destruct (agent_set (current_agent st) && contains (strip line) ":"
              && negb (startswith (strip line) "-")).
    + destruct (contains (lower (strip line)) "capabilities"); [exact Hr |].
      destruct (contains (lower (strip line)) "permissions"); exact Hr.
    + destruct (current_agent st) as [a|]; [|exact Hr].
      destruct (current_section st) as [sec|]; [|exact Hr].
      destruct (truthy a && startswith (strip line) "-"); [|exact Hr].
      destruct (truthy (strip (drop_chars 1 (strip line)))); [|exact Hr].
      cbn [agents]. apply keys_ok_dict_update, Hr.
Qed.

(** X11. Whatever the roster document, the agents of the parsed roster
    have distinct ids in the order of their first header; no id is empty,
    each is stored stripped, and each record carries its own id. *)
Theorem parsed_roster_keys (file : option string) :
  NoDup (roster_keys (load_roster file)) /\
  Forall (fun kv => kv.1 ≠ EmptyString /\ strip kv.1 = kv.1 /\ info_agent_id kv.2 = kv.1)
         (load_roster file).
Proof.
  change (keys_ok (load_roster file)).
  destruct file as [content|]; simpl.
  - generalize (split_on newline content).
    assert (H0 : keys_ok (agents (ParseState [] None None)))
      by (split; constructor).
    revert H0. generalize (ParseState [] None None).
    intros st H0 lines. revert st H0.
    induction lines as [|l lines IH]; intros st H0; simpl; [exact H0 |].
    apply IH, roster_line_keys_ok, H0.
  - split; constructor.
Qed.

Lemma roster_line_without_agent st line :
  is_agent_header line = false -> current_agent st = None ->
  roster_line st line = st.
Proof.
  unfold is_agent_header. intros Hh Ha. unfold roster_line. rewrite Hh, Ha. reflexivity.
Qed.

(** X12. A roster document in which no line is an agent header parses to
    the empty roster: labels and bullet items that come before the first
    header are ignored. *)
Theorem roster_without_header_is_empty (roster_content : string) :
  Forall (fun line => is_agent_header line = false) (split_on newline roster_content) ->
  load_roster (Some roster_content) = [].
Proof.
  intros Hall. unfold load_roster.
  assert (H : forall lines st,
             Forall (fun line => is_agent_header line = false) lines ->
             current_agent st = None ->
             fold_left roster_line lines st = st).
  { induction lines as [|l lines IH]; intros st Hl Ha; simpl; [reflexivity |].
    inversion Hl; subst. rewrite roster_line_without_agent by assumption. auto. }
  rewrite H; [reflexivity | exact Hall | reflexivity].
Qed.

Lemma roster_without_header_is_empty_witness :
  load_roster (Some headerless_roster) = [].
Proof.
  apply roster_without_header_is_empty. vm_compute. repeat constructor.
Defined.

Lemma dict_get_update_eq {V} k (f : V -> V) d :
  dict_get k (dict_update k f d) = f <$> dict_get k d.
Proof.
  induction d as [|[k' v'] d IH]; [reflexivity |].
  cbn [dict_update dict_get]. destruct (String.eqb k k') eqn:E; cbn [dict_get]; rewrite E;
    [reflexivity | exact IH].
Qed.

Lemma bullet_is_no_header s :
  startswith s "-" = true -> startswith s "##" = false.
Proof.
  destruct s as [|c s]; [discriminate |].
  destruct c as [[] [] [] [] [] [] [] []]; simpl; intros H; try discriminate H;
    reflexivity.
Qed.

(** X13. An agent header [## name] with a non-empty name starts that agent
    afresh: its record is empty, whatever was collected for the name
    before; it keeps its place in the order if it was there and comes last
    otherwise; the other agents are untouched. The section label is not
    reset by the header: a bullet item that follows the header directly
    lands in the section last named for the previous agent. *)
Theorem header_starts_agent_afresh st line :
  is_agent_header line = true ->
  truthy (strip (drop_chars 2 (strip line))) = true ->
  let name := strip (drop_chars 2 (strip line)) in
  let st' := roster_line st line in
  dict_get name (agents st') = Some (AgentInfo name [] []) /\
  roster_keys (agents st')
  = (if bool_decide (name ∈ roster_keys (agents st))
     then roster_keys (agents st) else roster_keys (agents st) ++ [name]) /\
  (forall k, k ≠ name -> dict_get k (agents st') = dict_get k (agents st)) /\
  current_agent st' = Some name /\
  current_section st' = current_section st /\
  (forall bullet sec,
      current_section st = Some sec ->
      startswith (strip bullet) "-" = true ->
      truthy (strip (drop_chars 1 (strip bullet))) = true ->
      dict_get name (agents (roster_line st' bullet))
      = Some (append_item sec (strip (drop_chars 1 (strip bullet)))
                          (AgentInfo name [] []))).
Proof.
  intros Hh Hn name st'. unfold is_agent_header in Hh.
  assert (Est : st' = ParseState (dict_set name (AgentInfo name [] []) (agents st))
                                 (Some name) (current_section st)).
  { unfold st', name, roster_line. rewrite Hh. cbv zeta. rewrite Hn. reflexivity. }
  rewrite Est. cbn [agents current_agent current_section].
  split; [apply dict_get_set_eq |].
  split; [apply dict_set_keys |].
  split; [intros k Hk; apply dict_get_set_ne, Hk |].
  split; [reflexivity |]. split; [reflexivity |].
  intros bullet sec Hsec Hb Hitem. unfold roster_line.
  rewrite (bullet_is_no_header _ Hb). cbn [andb].
  rewrite Hb. cbn [negb]. rewrite andb_false_r.
  cbn [current_agent current_section agents]. rewrite Hsec. fold name in Hn.
  rewrite Hn. cbn [andb]. rewrite Hitem. cbn [agents].
  rewrite dict_get_update_eq, dict_get_set_eq. reflexivity.
Qed.

Lemma header_starts_agent_afresh_witness :
  dict_get "probe" (agents after_demo_roster)
  = Some (AgentInfo "probe" ["validate"] []) /\
  dict_get "probe" (agents (roster_line after_demo_roster "## probe"))
  = Some (AgentInfo "probe" [] []) /\
  dict_get "probe"
    (agents (roster_line (roster_line after_demo_roster "## probe") "  - check"))
  = Some (AgentInfo "probe" ["check"] []).
Proof.
  split; [reflexivity |].
  destruct (header_starts_agent_afresh after_demo_roster "## probe" eq_refl eq_refl)
    as (H1 & _ & _ & _ & _ & H2).
  split; [exact H1 |].
  exact (H2 "  - check" Capabilities eq_refl eq_refl eq_refl).
Defined.

(** ** More on the router *)

Lemma lower_char_idem c : lower_char (lower_char c) = lower_char c.
Proof. destruct c as [[] [] [] [] [] [] [] []]; reflexivity. Qed.

Lemma is_space_lower_char c : is_space (lower_char c) = is_space c.
Proof. destruct c as [[] [] [] [] [] [] [] []]; reflexivity. Qed.

Lemma lower_idem s : lower (lower s) = lower s.
Proof.
  induction s as [|c s IH]; [reflexivity |]. simpl. rewrite lower_char_idem, IH.
  reflexivity.
Qed.

Lemma lstrip_lower s : lstrip (lower s) = lower (lstrip s).
Proof.
  induction s as [|c s IH]; [reflexivity |]. simpl. rewrite is_space_lower_char.
  destruct (is_space c); [exact IH | reflexivity].
Qed.

Lemma rstrip_lower s : rstrip (lower s) = lower (rstrip s).
Proof.
  induction s as [|c s IH]; [reflexivity |]. simpl. rewrite IH, is_space_lower_char.
  destruct (rstrip s); simpl; [destruct (is_space c) |]; reflexivity.
Qed.

Lemma strip_lower s : strip (lower s) = lower (strip s).
Proof. unfold strip. rewrite lstrip_lower, rstrip_lower. reflexivity. Qed.

Lemma route_loop_lower_keywords payload_lower r :
  route_loop payload_lower (lower_keywords r) = route_loop payload_lower r.
Proof.
  induction r as [|[a i] r IH]; [reflexivity |].
  unfold lower_keywords in *. rewrite fmap_cons. cbn [route_loop fst snd capabilities].
  rewrite IH.
  replace (existsb (capability_hits payload_lower) (lower <$> capabilities i))
    with (existsb (capability_hits payload_lower) (capabilities i)); [reflexivity |].
  induction (capabilities i) as [|c cs IHc]; [reflexivity |].
  rewrite fmap_cons. cbn [existsb]. rewrite IHc. f_equal.
  unfold capability_hits. rewrite strip_lower, lower_idem. reflexivity.
Qed.

(** X14. Routing does not depend on letter case: two payloads that are
    equal once lower-cased are routed alike, a payload is routed like its
    lower-cased form, and lower-casing every capability keyword of the
    roster changes no route. *)
Theorem routing_ignores_letter_case r payload1 payload2 :
  lower payload1 = lower payload2 ->
  route_task r payload1 = route_task r payload2 /\
  route_task r (lower payload1) = route_task r payload2 /\
  route_task (lower_keywords r) payload1 = route_task r payload2.
Proof.
  intros E. unfold route_task. rewrite lower_idem, route_loop_lower_keywords, E. auto.
Qed.

Lemma routing_ignores_letter_case_witness :
  route_task shouting_roster "Write the Report" = "writer" /\
  route_task shouting_roster "write the report" = "writer" /\
  route_task (lower_keywords shouting_roster) "Write the Report" = "writer".
Proof.
  destruct (routing_ignores_letter_case shouting_roster
              "Write the Report" "write the report" eq_refl) as (H1 & _ & H3).
  assert (H0 : route_task shouting_roster "write the report" = "writer") by reflexivity.
  rewrite H1, H3. auto.
Defined.

(** X15. The librarian's own entry in the roster is never consulted: the
    route is the same with that entry removed, so a payload that only the
    librarian's keywords match falls back to the librarian by default and
    not by match. *)
Theorem route_task_skips_own_entry r payload :
  route_task r payload
  = route_task (filter (fun kv => kv.1 ≠ librarian_id) r) payload.
Proof.
  unfold route_task. induction r as [|[a i] r IH]; [reflexivity |].
  rewrite filter_cons. cbn [fst route_loop].
  destruct (decide (a ≠ librarian_id)) as [Hne|He].
  - cbn [route_loop]. apply String.eqb_neq in Hne. rewrite Hne, IH. reflexivity.
  - assert (a = librarian_id) as -> by (destruct (decide (a = librarian_id)); tauto).
    rewrite String.eqb_refl. exact IH.
Qed.

(** ** More on the consolidation pipeline *)



















Lemma verification_read_error_escapes_witness :
  let w := artifact_left [IoOk; IoOk; IoOk; IoOk; IoFails] in
  exists w3,
    collect_and_consolidate_spec "writer" "T1" w = (Raised (OSError active_spec_path), w3) /\
    status_of "T1" w3 = Some Delegated /\
    files w3 !! spec_path "writer" "T1" = Some "Report body".
Proof.
  intros w.
  set (w1 := (read_file (spec_path "writer" "T1") w).2).
  set (w2 := (append_to_active_spec "Report body" "writer" "T1" w1).2).
  set (w3 := (verify_consolidation "Report body" w2).2).
  destruct (verification_read_error_escapes "writer" "T1" w "Report body" w1 w2
              (OSError active_spec_path) w3 eq_refl eq_refl eq_refl eq_refl)
    as (H1 & _).
  exists w3. split; [exact H1 |]. split; reflexivity.
Defined.


(** X24. [_cleanup_task] removes the task id from the active set and every
    entry of that id from the completion queue, keeping the other tasks
    and the order of the other entries; doing it again changes nothing,
    and it touches neither the files nor the bus. *)
Theorem cleanup_task_is_idempotent task_id w :
  exists w',
    cleanup_task task_id w = (Ok tt, w') /\
    cleanup_task task_id w' = (Ok tt, w') /\
    active_tasks w' !! task_id = None /\
    (forall other, other ≠ task_id -> active_tasks w' !! other = active_tasks w !! other) /\
    (forall item, item ∈ completion_queue w' <->
                  item ∈ completion_queue w /\ item.2 ≠ task_id) /\
    files w' = files w /\ a2a w' = a2a w.
Proof.
  eexists. split; [apply cleanup_task_spec |].
  split.
  - rewrite cleanup_task_spec. f_equal.
    destruct w as [b r tasks q n fs o cs].
    unfold set_completion_queue, set_active_tasks. simpl. f_equal.
    + apply delete_id, lookup_delete_eq.
    + rewrite list_filter_filter. apply list_filter_iff. intros x. tauto.
  - simpl. split; [apply lookup_delete_eq |].
    split; [intros other Hne; apply lookup_delete_ne; congruence |].
    split; [|auto]. intros item. rewrite list_elem_of_filter. tauto.
Qed.

(** ** Tasks that nobody works on *)

Lemma delegated_task_type task_id payload :
  check_message (PyDict (delegated_task task_id payload))
  = inr (delegated_task task_id payload, "DELEGATED_TASK").
Proof. unfold check_message, delegated_task. rewrite lookup_insert_eq. reflexivity. Qed.

Lemma send_without_listener fuel to_agent d w :
  Bus.send_order (a2a w) to_agent (PyDict d) = inr [] ->
  send fuel to_agent (PyDict d) w = (Ok tt, w).
Proof.
  intros Ho. rewrite send_unfold. unfold Bus.send_order in Ho. unfold Bus.send.
  destruct (check_message (PyDict d)) as [e|[d' ev]]; [discriminate |].
  injection Ho as Ho. apply app_eq_nil in Ho as [-> Hg]. simpl. rewrite Hg.
  reflexivity.
Qed.

(** [_handle_new_task] on a message that carries a task id. *)
Lemma handle_new_task_named snd message task_id w :
  message !! "task_id" = Some task_id -> truthy task_id = true ->
  let payload := default "" (message !! "payload") in
  let target_agent := route_task (roster w) payload in
  handle_new_task snd message w
  = snd target_agent (PyDict (delegated_task task_id payload))
        (set_active_tasks
           (insert task_id (Task task_id payload Delegated (Some target_agent))) w).
Proof.
  intros Ht Htt payload target_agent. unfold handle_new_task. cbv zeta.
  unfold falsy. rewrite Ht, Htt. cbn [negb].
  change (default "" (Some task_id)) with task_id.
  subst payload target_agent. destruct w as [b r tasks q n fs o cs].
  unfold bind, ret, modify, gets, set_active_tasks. cbn [a2a roster active_tasks
    completion_queue task_counter files io calls].
  rewrite !alter_insert_eq. reflexivity.
Qed.

(** X25. A NEW_TASK that carries a task id and is routed to an agent for
    which [send] has no handler to call (the librarian itself, by default)
    leaves the task in the active set as DELEGATED to that agent, with
    nothing else changed: without a completion it stays there. *)
Theorem task_without_listener_stays_delegated fuel message task_id w :
  message !! "task_id" = Some task_id -> truthy task_id = true ->
  let payload := default "" (message !! "payload") in
  let target_agent := route_task (roster w) payload in
  Bus.send_order (a2a w) target_agent (PyDict (delegated_task task_id payload)) = inr [] ->
  handle_new_task (send fuel) message w
  = (Ok tt,
     set_active_tasks
       (insert task_id (Task task_id payload Delegated (Some target_agent))) w).
Proof.
  intros Ht Htt payload target_agent Ho.
  rewrite (handle_new_task_named _ _ _ _ Ht Htt). fold payload target_agent.
  apply send_without_listener. exact Ho.
Qed.

Lemma task_without_listener_stays_delegated_witness :
  handle_new_task (send 3) (new_task "T2" "tidy the archive") booted
  = (Ok tt,
     set_active_tasks
       (insert "T2" (Task "T2" "tidy the archive" Delegated (Some "librarian"))) booted).
Proof.
  exact (task_without_listener_stays_delegated 3 (new_task "T2" "tidy the archive") "T2"
           booted eq_refl eq_refl eq_refl).
Defined.

(** ** The probe *)

(** X26. [ProbeAgent._handle_delegated_task] ignores a message without a
    task id. Otherwise, on a file system that behaves, it writes its
    static report as the artifact of the task and then signals
    TASK_COMPLETE for (["probe"], task id) to the librarian; if the first
    file-system call fails, the exception propagates and no completion is
    signalled. *)
Theorem probe_writes_then_signals snd message w :
  (falsy (message !! "task_id") = true ->
   handle_delegated_task snd message w = (Ok tt, w)) /\
  (forall task_id,
      message !! "task_id" = Some task_id -> truthy task_id = true ->
      (io w = [] ->
       handle_delegated_task snd message w
       = snd librarian_id (PyDict (task_complete probe_id task_id))
             (set_files (insert (spec_path probe_id task_id) probe_spec_content) w)) /\
      (forall o, io w = IoFails :: o ->
                 handle_delegated_task snd message w
                 = (Raised (OSError logs_path), set_io o w))).
Proof.
  split.
  - intros Hf. unfold handle_delegated_task. rewrite Hf. reflexivity.
  - intros task_id Ht Htt. unfold handle_delegated_task, falsy. rewrite Ht, Htt.
    cbn [negb]. change (default "" (Some task_id)) with task_id.
    unfold emit_task_complete. split.
    + intros Hio. rewrite (honest_world w [] Hio). reflexivity.
    + intros o Hio. rewrite (honest_world w _ Hio). reflexivity.
Qed.

Lemma probe_writes_then_signals_witness :
  handle_delegated_task (send 3) {["task_id" := "T1"]} booted
  = send 3 librarian_id (PyDict (task_complete probe_id "T1"))
         (set_files (insert (spec_path probe_id "T1") probe_spec_content) booted).
Proof.
  exact (proj1 (proj2 (probe_writes_then_signals (send 3) {["task_id" := "T1"]} booted)
                      "T1" eq_refl eq_refl) eq_refl).
Defined.

(** ** Start-up and submission *)

Lemma booted_send_order to_agent d event_type :
  d !! "type" = Some event_type ->
  Bus.send_order (a2a booted) to_agent (PyDict d)
  = inr (if bool_decide (to_agent = librarian_id /\ event_type = "NEW_TASK")
         then [LibNewTask; LibNewTask]
         else if bool_decide (to_agent = librarian_id /\ event_type = "TASK_COMPLETE")
              then [LibTaskComplete; LibTaskComplete]
              else []).
Proof.
  intros Hd. unfold Bus.send_order, check_message. rewrite Hd. f_equal.
  destruct (built_mirrored _ built_booted) as (_ & M2 & M3).
  assert (Hi : Bus.instances (a2a booted) = <["librarian" := 1]> (<["manager" := 0]> ∅))
    by (vm_compute; reflexivity).
  assert (Hlib : Bus.objects (a2a booted) !! 1
                 = Some (Bus.Instance "librarian"
                           (<["TASK_COMPLETE" := [LibTaskComplete]]>
                              (<["NEW_TASK" := [LibNewTask]]> ∅)) true))
    by (vm_compute; reflexivity).
  assert (Hmgr : Bus.objects (a2a booted) !! 0 = Some (Bus.Instance "manager" ∅ true))
    by (vm_compute; reflexivity).
  unfold Bus.instance_targets. rewrite Hi.
  destruct (decide (to_agent = "librarian")) as [->|Hl].
  - rewrite lookup_insert_eq. cbn [mbind option_bind]. rewrite Hlib.
    cbn [Bus.running Bus.handlers].
    destruct (M3 _ _ Hlib) as (_ & Hg). cbn [Bus.agent_id Bus.handlers] in Hg.
    rewrite Hg.
    destruct (decide (event_type = "TASK_COMPLETE")) as [->|Htc].
    + rewrite lookup_insert_eq. reflexivity.
    + rewrite lookup_insert_ne by congruence.
      destruct (decide (event_type = "NEW_TASK")) as [->|Hnt].
      * rewrite lookup_insert_eq. reflexivity.
      * rewrite lookup_insert_ne by congruence. rewrite lookup_empty.
        rewrite !bool_decide_eq_false_2 by (intros [_ E]; congruence). reflexivity.
  - rewrite lookup_insert_ne by congruence.
    assert (Hno : forall ev : string,
               bool_decide (to_agent = librarian_id /\ event_type = ev) = false)
      by (intros ev; apply bool_decide_eq_false_2; intros [? _]; auto).
    rewrite !Hno.
    destruct (decide (to_agent = "manager")) as [->|Hm].
    + rewrite lookup_insert_eq. cbn [mbind option_bind]. rewrite Hmgr.
      cbn [Bus.running Bus.handlers]. rewrite lookup_empty.
      destruct (M3 _ _ Hmgr) as (_ & Hg). cbn [Bus.agent_id Bus.handlers] in Hg.
      rewrite Hg, lookup_empty. reflexivity.
    + rewrite lookup_insert_ne by congruence. rewrite lookup_empty.
      cbn [mbind option_bind]. rewrite M2; [reflexivity |].
      rewrite Hi, !lookup_insert_ne by congruence. apply lookup_empty.
Qed.


Lemma new_task_fields task_id payload :
  new_task task_id payload !! "type" = Some "NEW_TASK" /\
  new_task task_id payload !! "task_id" = Some task_id /\
  new_task task_id payload !! "payload" = Some payload.
Proof.
  unfold new_task. split; [apply lookup_insert_eq |].
  split; [rewrite lookup_insert_ne by discriminate; apply lookup_insert_eq |].
  rewrite !lookup_insert_ne by discriminate. apply lookup_insert_eq.
Qed.

Lemma delegated_task_fields task_id payload :
  delegated_task task_id payload !! "type" = Some "DELEGATED_TASK".
Proof. apply lookup_insert_eq. Qed.

(** [_handle_new_task], called by [send] on the bus of [booted], where no
    agent listens to DELEGATED_TASK. *)
Lemma call_new_task_on_booted_bus fuel task_id payload w :
  a2a w = a2a booted -> truthy task_id = true ->
  call_handler fuel LibNewTask (new_task task_id payload) w
  = (None,
     set_active_tasks
       (insert task_id (Task task_id payload Delegated (Some (route_task (roster w) payload))))
       (log_call LibNewTask (new_task task_id payload) w)).
Proof.
  intros Hb Htt. destruct (new_task_fields task_id payload) as (_ & Ht & Hp).
  unfold call_handler. cbn [run_handler].
  rewrite (handle_new_task_named _ _ _ _ Ht Htt). rewrite Hp. cbn [default from_option id].
  rewrite send_without_listener; [reflexivity |].
  cbn [a2a set_active_tasks log_call]. rewrite Hb.
  rewrite (booted_send_order _ _ _ (delegated_task_fields task_id payload)).
  rewrite !bool_decide_eq_false_2 by (intros [_ E]; discriminate E). reflexivity.
Qed.

(** X28. On a running system in which only the manager and the librarian
    are registered, [submit_task] returns the id it generated and leaves
    the task in the active set as DELEGATED to the agent the router chose,
    whatever the description: nobody listens to DELEGATED_TASK, no file is
    touched, and the librarian's handler has run twice on the one
    message. *)
Theorem submitted_task_is_left_delegated fuel task_description w :
  a2a w = a2a booted ->
  let id := task_id_text (S (task_counter w)) in
  exists w',
    submit_task (S fuel) task_description w = (Ok id, w') /\
    active_tasks w'
    = <[id := Task id task_description Delegated
                   (Some (route_task (roster w) task_description))]> (active_tasks w) /\
    task_counter w' = S (task_counter w) /\
    files w' = files w /\ io w' = io w /\
    called w' = called w ++ [LibNewTask; LibNewTask].
Proof.
  intros Hb id.
  assert (Htt : truthy id = true) by reflexivity.
  destruct (new_task_fields id task_description) as (Hty & _ & _).
  unfold submit_task. rewrite bind_run, generate_task_id_run. fold id.
  set (w1 := set_task_counter (S (task_counter w)) w).
  assert (Hb1 : a2a w1 = a2a booted) by exact Hb.
  rewrite bind_run.
  rewrite (system_send_follows_send_order fuel librarian_id _
             [LibNewTask; LibNewTask] w1).
  2:{ rewrite Hb1, (booted_send_order _ _ _ Hty).
      rewrite bool_decide_eq_true_2 by auto. reflexivity. }
  change (fun h d w' => to_opt (run_handler (send fuel) h d (log_call h d w')))
    with (call_handler fuel).
  cbn [Bus.call_all].
  pose proof (call_new_task_on_booted_bus fuel id task_description w1 Hb1 Htt) as Hc1.
  set (w2 := set_active_tasks
               (insert id (Task id task_description Delegated
                                (Some (route_task (roster w1) task_description))))
               (log_call LibNewTask (new_task id task_description) w1)) in *.
  pose proof (call_new_task_on_booted_bus fuel id task_description w2 Hb1 Htt) as Hc2.
  eexists. split.
  - rewrite Hc1, Hc2. reflexivity.
  - cbn [active_tasks set_active_tasks log_call task_counter files io calls roster w1 w2
         set_task_counter].
    rewrite insert_insert_eq. unfold called.
    repeat split; try reflexivity.
    cbv [calls set_active_tasks log_call w2 w1 set_task_counter].
    rewrite !fmap_app, <- app_assoc. reflexivity.
Qed.

Lemma submitted_task_is_left_delegated_witness :
  exists w',
    submit_task 3 "tidy the archive" booted = (Ok "TASK-001", w') /\
    status_of "TASK-001" w' = Some Delegated /\
    called w' = [LibNewTask; LibNewTask].
Proof.
  destruct (submitted_task_is_left_delegated 2 "tidy the archive" booted eq_refl)
    as (w' & H1 & H2 & _ & _ & _ & H3).
  exists w'. split; [exact H1 |]. unfold status_of. rewrite H2, H3.
  split; [|reflexivity]. rewrite lookup_insert_eq. reflexivity.
Defined.

(** ** Instructions *)

Lemma truthy_app_l (s1 s2 : string) : truthy s1 = true -> truthy (s1 +:+ s2) = true.
Proof. destruct s1; [discriminate | reflexivity]. Qed.

Lemma join_truthy sep p parts : truthy p = true -> truthy (join_with sep (p :: parts)) = true.
Proof.
  intros Hp. destruct parts as [|q parts]; [exact Hp |].
  cbn [join_with]. apply truthy_app_l, Hp.
Qed.

Lemma join_cons sep p q parts :
  join_with sep (p :: q :: parts) = p +:+ sep +:+ join_with sep (q :: parts).
Proof. reflexivity. Qed.

Lemma append_nil_r (s : string) : s +:+ EmptyString = s.
Proof. induction s as [|c s IH]; [reflexivity |]. rewrite append_cons, IH. reflexivity. Qed.

Lemma part_occurs_in_join sep p parts : p ∈ parts -> occurs_in p (join_with sep parts).
Proof.
  induction parts as [|q parts IH]; intros Hin; [inversion Hin |].
  apply elem_of_cons in Hin as [->|Hin].
  - destruct parts as [|q' parts].
    + exists EmptyString, EmptyString. cbn [join_with].
      rewrite append_nil, append_nil_r. reflexivity.
    + exists EmptyString, (sep +:+ join_with sep (q' :: parts)). reflexivity.
  - destruct parts as [|q' parts]; [inversion Hin |].
    destruct (IH Hin) as (pre & post & E).
    exists (q +:+ sep +:+ pre), post. rewrite join_cons, E, !app_assoc_s. reflexivity.
Qed.

Lemma join_as_concat sep head rest :
  join_with sep (head :: rest)
  = head +:+ concat_strings ((fun p => sep +:+ p) <$> rest).
Proof.
  revert head. induction rest as [|q rest IH]; intros head.
  - cbn [join_with fmap list_fmap concat_strings]. rewrite append_nil_r. reflexivity.
  - rewrite join_cons, IH, fmap_cons. cbn [concat_strings].
    rewrite !app_assoc_s. reflexivity.
Qed.

Lemma text_parts_truthy i : Forall (fun p => truthy p = true) (text_parts i).
Proof.
  unfold text_parts. repeat apply Forall_app_2.
  - destruct (truthy (ins_context i)); repeat constructor.
  - destruct (truthy (ins_goal i)); repeat constructor.
  - destruct (ins_rules i) as [|r rs]; [constructor |].
    constructor; [reflexivity |]. apply Forall_fmap, Forall_forall. intros; reflexivity.
Qed.

(** X29. [Instruction.to_text] returns the empty string exactly when the
    instruction has no context, no goal and no rules; passing no rules to
    the constructor is passing the empty list. *)
Theorem to_text_empty_iff i :
  (to_text i = EmptyString <->
   ins_context i = EmptyString /\ ins_goal i = EmptyString /\ ins_rules i = []) /\
  (forall context goal,
      new_instruction context goal None = new_instruction context goal (Some [])).
Proof.
  split; [|reflexivity]. split.
  - intros Ht. unfold to_text in Ht.
    pose proof (text_parts_truthy i) as Hall.
    destruct (text_parts i) as [|p parts] eqn:Ep.
    + unfold text_parts in Ep.
      destruct (ins_context i) as [|c s]; [|discriminate Ep].
      destruct (ins_goal i) as [|c s]; [|discriminate Ep].
      destruct (ins_rules i); [auto | discriminate Ep].
    + inversion Hall as [|? ? Hp _]; subst.
      pose proof (join_truthy (nl +:+ nl) p parts Hp) as Hj. rewrite Ht in Hj.
      discriminate Hj.
  - intros (Hc & Hg & Hr). unfold to_text, text_parts. rewrite Hc, Hg, Hr. reflexivity.
Qed.

(** X30. In the text of an instruction the context, if any, appears under
    ["Context:"], the goal, if any, under ["Goal:"], and every rule as
    ["- rule"]; the parts are separated by blank lines, the rules from one
    another too: an instruction with rules only reads ["Rules:"] followed,
    for each rule in order, by a blank line and ["- rule"]. *)
Theorem to_text_shows_every_part i :
  (truthy (ins_context i) = true ->
   occurs_in ("Context:" +:+ nl +:+ ins_context i) (to_text i)) /\
  (truthy (ins_goal i) = true ->
   occurs_in ("Goal:" +:+ nl +:+ ins_goal i) (to_text i)) /\
  (forall rule, rule ∈ ins_rules i -> occurs_in ("- " +:+ rule) (to_text i)) /\
  (ins_context i = EmptyString -> ins_goal i = EmptyString -> ins_rules i ≠ [] ->
   to_text i
   = "Rules:" +:+ concat_strings ((fun rule => nl +:+ nl +:+ "- " +:+ rule) <$> ins_rules i)).
Proof.
  split; [|split; [|split]].
  - intros Hc. apply part_occurs_in_join. unfold text_parts. rewrite Hc.
    apply elem_of_app. left. left.
  - intros Hg. apply part_occurs_in_join. unfold text_parts. rewrite Hg.
    apply elem_of_app. right. apply elem_of_app. left. left.
  - intros rule Hin. apply part_occurs_in_join. unfold text_parts.
    apply elem_of_app. right. apply elem_of_app. right.
    destruct (ins_rules i) as [|r rs]; [inversion Hin |].
    right. apply (list_elem_of_fmap_2 (fun rule => "- " +:+ rule)). exact Hin.
  - intros Hc Hg Hr. unfold to_text, text_parts. rewrite Hc, Hg.
    cbn [truthy app]. destruct (ins_rules i) as [|r rs]; [congruence |].
    rewrite join_as_concat. f_equal. generalize (r :: rs). clear.
    induction l as [|x l IH]; [reflexivity |].
    rewrite !fmap_cons. cbn [concat_strings]. rewrite IH, !app_assoc_s. reflexivity.
Qed.

Lemma to_text_shows_every_part_witness :
  to_text (new_instruction "" "" (Some ["be brief"; "cite sources"]))
  = "Rules:" +:+ nl +:+ nl +:+ "- be brief" +:+ nl +:+ nl +:+ "- cite sources".
Proof.
  refine (eq_trans
    (proj2 (proj2 (proj2 (to_text_shows_every_part
       (new_instruction "" "" (Some ["be brief"; "cite sources"])))))
       eq_refl eq_refl _) _).
  - discriminate.
  - vm_compute. reflexivity.
Defined.
